(** * isk-booking: the booking-state core of [src/App.jsx]

    A shallow embedding of the calendar arithmetic, the slot index and the
    optimistic create/delete protocol of the meeting-room booking
    application, together with the properties its specification states.

    Conventions of the embedding:
    - a JavaScript string is the list of its UTF-16 code units;
    - a JavaScript number that the program only ever uses as an integer
      (minutes, day numbers, time values) is a [Z];
    - a [Date] is its time value in milliseconds, read on the local
      civil time line (fixed offset, no daylight-saving transitions), and
      the Date methods follow the algorithms of ECMA-262 (Day, WeekDay,
      YearFromTime, MonthFromTime, DateFromTime, MakeDay, MakeDate);
    - React state is a record; an event handler is a computation in a
      small state monad over that record; an [async] handler is split at
      its [await] into the part that runs before the store call and the
      continuation that runs with the store's answer. *)

From Stdlib Require Import ZArith Lia String Ascii.
From Stdlib Require DecimalZ.
From stdpp Require Import base tactics option numbers list gmap.

Local Open Scope Z_scope.

(** ** JavaScript strings *)

Module JSString.

(** A string is a sequence of UTF-16 code units. *)
Definition t := list N.

(** Source literals are UTF-8 text; [lit] decodes one into code units
    (code points above the BMP become a surrogate pair). *)
Fixpoint lit (s : string) : t :=
  match s with
  | EmptyString => []
  | String a r =>
    let b0 := N_of_ascii a in
    if (b0 <? 128)%N then b0 :: lit r
    else if (b0 <? 224)%N then
      match r with
      | String a1 r1 =>
        ((b0 mod 32) * 64 + N_of_ascii a1 mod 64)%N :: lit r1
      | _ => [65533%N]
      end
    else if (b0 <? 240)%N then
      match r with
      | String a1 (String a2 r2) =>
        ((b0 mod 16) * 4096 + (N_of_ascii a1 mod 64) * 64
         + N_of_ascii a2 mod 64)%N :: lit r2
      | _ => [65533%N]
      end
    else
      match r with
      | String a1 (String a2 (String a3 r3)) =>
        let cp := ((b0 mod 8) * 262144 + (N_of_ascii a1 mod 64) * 4096
                   + (N_of_ascii a2 mod 64) * 64 + N_of_ascii a3 mod 64)%N in
        let v := (cp - 65536)%N in
        (55296 + v / 1024)%N :: (56320 + v mod 1024)%N :: lit r3
      | _ => [65533%N]
      end
  end.

(** ECMA-262 WhiteSpace and LineTerminator code points: the characters
    [String.prototype.trim] strips. *)
Definition isWhiteSpace (c : N) : bool :=
  ((9 <=? c) && (c <=? 13) || (c =? 32) || (c =? 160) || (c =? 5760)
   || (8192 <=? c) && (c <=? 8202) || (c =? 8232) || (c =? 8233)
   || (c =? 8239) || (c =? 8287) || (c =? 12288) || (c =? 65279))%N.

Fixpoint trimStart (s : t) : t :=
  match s with
  | c :: r => if isWhiteSpace c then trimStart r else s
  | [] => []
  end.

Definition trimEnd (s : t) : t := rev (trimStart (rev s)).

(** [s.trim()] *)
Definition trim (s : t) : t := trimEnd (trimStart s).

Fixpoint uint_units (u : Decimal.uint) : t :=
  match u with
  | Decimal.Nil => []
  | Decimal.D0 r => 48%N :: uint_units r
  | Decimal.D1 r => 49%N :: uint_units r
  | Decimal.D2 r => 50%N :: uint_units r
  | Decimal.D3 r => 51%N :: uint_units r
  | Decimal.D4 r => 52%N :: uint_units r
  | Decimal.D5 r => 53%N :: uint_units r
  | Decimal.D6 r => 54%N :: uint_units r
  | Decimal.D7 r => 55%N :: uint_units r
  | Decimal.D8 r => 56%N :: uint_units r
  | Decimal.D9 r => 57%N :: uint_units r
  end.

(** [String(n)], also the text of [n] in a template literal, for an
   integer-valued number (below 10^21, where the decimal form is used). *)
Definition ofNumber (n : Z) : t :=
  match Z.to_int n with
  | Decimal.Pos u => uint_units u
  | Decimal.Neg u => 45%N :: uint_units u
  end.

(** [s.padStart(targetLength, padString)] *)
Definition padStart (s : t) (targetLength : nat) (padString : t) : t :=
  let len := List.length s in
  if (targetLength <=? len)%nat then s
  else match padString with
       | [] => s
       | _ =>
         let fillLen := (targetLength - len)%nat in
         take fillLen (mjoin (replicate fillLen padString)) ++ s
       end.

(** Truthiness of a string: [!s] holds exactly for the empty string. *)
Definition truthy (s : t) : bool :=
  match s with [] => false | _ => true end.

End JSString.

Abbreviation jsstring := JSString.t.
Abbreviation js := JSString.lit.

(** ** JavaScript [Date], after ECMA-262 (time values and local time) *)

Module JSDate.

Definition msPerDay : Z := 86400000.

(** A date object holds a time value; it is read on the local time line. *)
Record Date := mkDate { timeValue : Z }.

Definition Day (t : Z) : Z := t / msPerDay.
Definition TimeWithinDay (t : Z) : Z := t mod msPerDay.

Definition DaysInYear (y : Z) : Z :=
  if negb (y mod 4 =? 0) then 365
  else if negb (y mod 100 =? 0) then 366
  else if negb (y mod 400 =? 0) then 365
  else 366.

Definition DayFromYear (y : Z) : Z :=
  365 * (y - 1970) + (y - 1969) / 4 - (y - 1901) / 100 + (y - 1601) / 400.

(** The largest [y] with [DayFromYear y <= d]: an estimate from the mean
    year length, corrected by at most one year. *)
Definition YearFromDay (d : Z) : Z :=
  let y0 := 1970 + (d * 400) / 146097 in
  if d <? DayFromYear y0 then y0 - 1
  else if DayFromYear (y0 + 1) <=? d then y0 + 1
  else y0.

Definition YearFromTime (t : Z) : Z := YearFromDay (Day t).

Definition InLeapYearOf (y : Z) : Z :=
  if DaysInYear y =? 366 then 1 else 0.

Definition InLeapYear (t : Z) : Z := InLeapYearOf (YearFromTime t).

Definition DayWithinYear (t : Z) : Z := Day t - DayFromYear (YearFromTime t).

(** Day number, within its year, of the first day of month [m] (0..11). *)
Definition monthStart (leap m : Z) : Z :=
  match m with
  | 0 => 0
  | 1 => 31
  | 2 => 59 + leap
  | 3 => 90 + leap
  | 4 => 120 + leap
  | 5 => 151 + leap
  | 6 => 181 + leap
  | 7 => 212 + leap
  | 8 => 243 + leap
  | 9 => 273 + leap
  | 10 => 304 + leap
  | _ => 334 + leap
  end.

Definition MonthOfDayWithinYear (leap dwy : Z) : Z :=
  if dwy <? 31 then 0
  else if dwy <? 59 + leap then 1
  else if dwy <? 90 + leap then 2
  else if dwy <? 120 + leap then 3
  else if dwy <? 151 + leap then 4
  else if dwy <? 181 + leap then 5
  else if dwy <? 212 + leap then 6
  else if dwy <? 243 + leap then 7
  else if dwy <? 273 + leap then 8
  else if dwy <? 304 + leap then 9
  else if dwy <? 334 + leap then 10
  else 11.

Definition MonthFromTime (t : Z) : Z :=
  MonthOfDayWithinYear (InLeapYear t) (DayWithinYear t).

Definition DateFromTime (t : Z) : Z :=
  DayWithinYear t - monthStart (InLeapYear t) (MonthFromTime t) + 1.

Definition WeekDay (t : Z) : Z := (Day t + 4) mod 7.

Definition MakeTime (hour min sec ms : Z) : Z :=
  hour * 3600000 + min * 60000 + sec * 1000 + ms.

Definition MakeDay (year month date : Z) : Z :=
  let ym := year + month / 12 in
  let mn := month mod 12 in
  DayFromYear ym + monthStart (InLeapYearOf ym) mn + date - 1.

Definition MakeDate (day time : Z) : Z := day * msPerDay + time.

(** [new Date(dateLike)] for a [Date] argument: a fresh object with the
    same time value. *)
Definition copy (d : Date) : Date := mkDate (timeValue d).

Definition getFullYear (d : Date) : Z := YearFromTime (timeValue d).
Definition getMonth (d : Date) : Z := MonthFromTime (timeValue d).
Definition getDate (d : Date) : Z := DateFromTime (timeValue d).
Definition getDay (d : Date) : Z := WeekDay (timeValue d).

(** [d.setDate(dt)] *)
Definition setDate (d : Date) (dt : Z) : Date :=
  let t := timeValue d in
  mkDate (MakeDate (MakeDay (YearFromTime t) (MonthFromTime t) dt)
                   (TimeWithinDay t)).

(** [d.setHours(hour, min, sec, ms)] *)
Definition setHours (d : Date) (hour min sec ms : Z) : Date :=
  mkDate (MakeDate (Day (timeValue d)) (MakeTime hour min sec ms)).

(** The date object for local midnight of a civil date (month 0..11). *)
Definition ofCivil (year month date : Z) : Date :=
  mkDate (MakeDate (MakeDay year month date) 0).

End JSDate.

Import JSDate.

(** ** Calendar math ([App.jsx], lines 16-108) *)

Definition DK_DAY : list jsstring :=
  [js "Man"; js "Tir"; js "Ons"; js "Tor"; js "Fre"; js "Lør"; js "Søn"].

Definition DK_MONTH : list jsstring :=
  [js "jan"; js "feb"; js "mar"; js "apr"; js "maj"; js "jun";
   js "jul"; js "aug"; js "sep"; js "okt"; js "nov"; js "dec"].

(** [arr[i]] inside a template literal: a missing element prints as
    [undefined]. *)
Definition index (arr : list jsstring) (i : Z) : jsstring :=
  if i <? 0 then js "undefined"
  else default (js "undefined") (arr !! Z.to_nat i).

Definition pad2 (n : Z) : jsstring :=
  JSString.padStart (JSString.ofNumber n) 2 (js "0").

Definition minutesToHHMM (mins : Z) : jsstring :=
  let h := mins / 60 in
  let m := Z.rem mins 60 in
  pad2 h ++ js ":" ++ pad2 m.

Definition formatSlotLabel (startMins : Z) : jsstring :=
  let endMins := startMins + 60 in
  minutesToHHMM startMins ++ js "-" ++ minutesToHHMM endMins.

Definition toISODate (dateLike : Date) : jsstring :=
  let d := copy dateLike in
  let year := getFullYear d in
  let month := pad2 (getMonth d + 1) in
  let day := pad2 (getDate d) in
  JSString.ofNumber year ++ js "-" ++ month ++ js "-" ++ day.

Definition addDays (dateLike : Date) (days : Z) : Date :=
  let d := copy dateLike in
  setDate d (getDate d + days).

Definition startOfWeekMonday (dateLike : Date) : Date :=
  let d := copy dateLike in
  let day := getDay d in
  let diffToMonday := Z.rem (day + 6) 7 in
  let d := setHours d 0 0 0 0 in
  setDate d (getDate d - diffToMonday).

Definition formatDanishDayLabel (dateLike : Date) : jsstring :=
  let d := copy dateLike in
  let jsDay := getDay d in
  let dkIndex := if jsDay =? 0 then 6 else jsDay - 1 in
  let dayName := index DK_DAY dkIndex in
  let day := getDate d in
  let month := index DK_MONTH (getMonth d) in
  dayName ++ js " " ++ JSString.ofNumber day ++ js ". " ++ month.

Definition formatWeekRange (mondayLike : Date) : jsstring :=
  let start := copy mondayLike in
  let end_ := addDays start 4 in
  let sDay := getDate start in
  let sMonth := index DK_MONTH (getMonth start) in
  let eDay := getDate end_ in
  let eMonth := index DK_MONTH (getMonth end_) in
  if getMonth start =? getMonth end_ then
    JSString.ofNumber sDay ++ js ".–" ++ JSString.ofNumber eDay
      ++ js ". " ++ sMonth
  else
    JSString.ofNumber sDay ++ js ". " ++ sMonth ++ js " – "
      ++ JSString.ofNumber eDay ++ js ". " ++ eMonth.

Record Slot := mkSlot { slot_startMins : Z; slot_label : jsstring }.

(** The [for] loop of [buildSlots]: [for (m = ...; m < 17 * 60; m += 60)].
    [fuel] bounds the number of loop tests; [None] means it ran out. *)
Fixpoint buildSlots_loop (fuel : nat) (m : Z) (slots : list Slot)
  : option (list Slot) :=
  match fuel with
  | O => None
  | S fuel' =>
    if m <? 17 * 60
    then buildSlots_loop fuel' (m + 60)
           (slots ++ [mkSlot m (formatSlotLabel m)])
    else Some slots
  end.

Definition buildSlots_fuel (fuel : nat) : option (list Slot) :=
  buildSlots_loop fuel (8 * 60) [].

(** Ten loop tests are enough (see [buildSlots_fuel_enough]). *)
Definition buildSlots : list Slot := default [] (buildSlots_fuel 10).

(** ** Bookings and the slot index ([App.jsx], lines 110-158) *)

(** Values as they arrive from the store. The [start_mins] column is
    declared [integer], so a number is an integer. *)
Inductive JSValue :=
| JSUndefined
| JSNull
| JSBoolean (b : bool)
| JSNumber (n : Z)
| JSStr (s : jsstring)
| JSObject.

Inductive JSType := TUndefined | TObject | TBoolean | TNumber | TString.

Definition typeof (v : JSValue) : JSType :=
  match v with
  | JSUndefined => TUndefined
  | JSNull => TObject
  | JSBoolean _ => TBoolean
  | JSNumber _ => TNumber
  | JSStr _ => TString
  | JSObject => TObject
  end.

Definition JSType_eqb (a b : JSType) : bool :=
  match a, b with
  | TUndefined, TUndefined | TObject, TObject | TBoolean, TBoolean
  | TNumber, TNumber | TString, TString => true
  | _, _ => false
  end.

(** A row of the [bookings] table, as [select("*")] returns it. *)
Record Row := mkRow {
  row_room : JSValue;
  row_date : JSValue;
  row_start_mins : JSValue;
  row_name : JSValue
}.

(** The object literal [fetchBookings] builds from a row. *)
Record RawBooking := mkRaw {
  raw_room : JSValue;
  raw_date : JSValue;
  raw_startMins : JSValue;
  raw_name : JSValue
}.

(** [(b) => ({ room: b.room, date: b.date, startMins: b.start_mins,
    name: b.name })] *)
Definition rawOfRow (b : Row) : RawBooking :=
  {| raw_room := row_room b;
     raw_date := row_date b;
     raw_startMins := row_start_mins b;
     raw_name := row_name b |}.

Record Booking := mkBooking {
  room : jsstring;
  date : jsstring;
  startMins : Z;
  name : jsstring
}.

(** Reading a field whose type the filter has already checked. *)
Definition asString (v : JSValue) : jsstring :=
  match v with JSStr s => s | _ => [] end.

Definition asNumber (v : JSValue) : Z :=
  match v with JSNumber n => n | _ => 0 end.

Definition wellTyped (b : RawBooking) : bool :=
  JSType_eqb (typeof (raw_room b)) TString
  && JSType_eqb (typeof (raw_date b)) TString
  && JSType_eqb (typeof (raw_startMins b)) TNumber
  && JSType_eqb (typeof (raw_name b)) TString.

(** [raw] is always the array [fetchBookings] has just built from object
    rows, so the [Array.isArray] test and the [b &&] test pass. *)
Definition normalizeBookings (raw : list RawBooking) : list Booking :=
  map (fun b => {| room := asString (raw_room b);
                   date := asString (raw_date b);
                   startMins := asNumber (raw_startMins b);
                   name := JSString.trim (asString (raw_name b)) |})
      (List.filter wellTyped raw).

Definition bookingKey (room date : jsstring) (startMins : Z) : jsstring :=
  room ++ js "__" ++ date ++ js "__" ++ JSString.ofNumber startMins.

(** The cell a modal is open for: [{ room, date, startMins }]. *)
Record Cell := mkCell {
  cell_room : jsstring;
  cell_date : jsstring;
  cell_startMins : Z
}.

Definition cellOf (b : Booking) : Cell :=
  mkCell (room b) (date b) (startMins b).

Definition keyOfCell (c : Cell) : jsstring :=
  bookingKey (cell_room c) (cell_date c) (cell_startMins c).

Definition keyOf (b : Booking) : jsstring :=
  bookingKey (room b) (date b) (startMins b).

(** The [Map] rebuilt from the booking array: a later entry overwrites an
    earlier one with the same key. *)
Definition bookingsIndex (bookings : list Booking) : gmap jsstring Booking :=
  foldl (fun map b => <[keyOf b := b]> map) ∅ bookings.

(** [b.room === c.room && b.date === c.date && b.startMins === c.startMins] *)
Definition atCell (c : Cell) (b : Booking) : bool :=
  bool_decide (room b = cell_room c)
  && bool_decide (date b = cell_date c)
  && (startMins b =? cell_startMins c).

(** [prev.filter((b) => !(... at the active cell ...))] *)
Definition removeAt (c : Cell) (prev : list Booking) : list Booking :=
  List.filter (fun b => negb (atCell c b)) prev.

(** ** The booking session ([App.jsx], lines 133-361) *)

Inductive ModalMode := ModeCreate | ModeDelete.

(** What the store client reports when a call fails. A unique-key
    violation carries PostgreSQL's code [23505]. *)
Record StoreError := mkStoreError {
  err_code : jsstring;
  err_message : jsstring
}.

Definition uniqueViolation : StoreError :=
  mkStoreError (js "23505")
    (js "duplicate key value violates unique constraint").

Inductive ConsoleArg :=
| ArgText (s : jsstring)
| ArgError (e : StoreError).

(** The component's state hooks, the snapshot ref, the generation of the
    room effect (its [isMounted] flag belongs to one generation) and the
    lines written with [console.error]. *)
Record Session := mkSession {
  selectedRoom : option jsstring;
  weekStart : Date;
  bookings : list Booking;
  loading : bool;
  modalOpen : bool;
  modalMode : ModalMode;
  activeCell : option Cell;
  nameInput : jsstring;
  errorMsg : jsstring;
  bookingsSnapshotRef : list Booking;
  effectGen : nat;
  console : list (list ConsoleArg)
}.

(** Handlers run in a state monad over the session. *)
Definition M (A : Type) : Type := Session → A * Session.

#[export] Instance M_ret : MRet M := λ A a s, (a, s).
#[export] Instance M_bind : MBind M :=
  λ A B f m s, let '(a, s') := m s in f a s'.

Definition gets {A} (f : Session → A) : M A := λ s, (f s, s).
Definition modify (f : Session → Session) : M unit := λ s, (tt, f s).
Definition exec {A} (m : M A) (s : Session) : Session := snd (m s).

Definition setSelectedRoom (v : option jsstring) : M unit :=
  modify (λ s, mkSession v (weekStart s) (bookings s) (loading s)
    (modalOpen s) (modalMode s) (activeCell s) (nameInput s) (errorMsg s)
    (bookingsSnapshotRef s) (effectGen s) (console s)).
Definition setWeekStart (v : Date) : M unit :=
  modify (λ s, mkSession (selectedRoom s) v (bookings s) (loading s)
    (modalOpen s) (modalMode s) (activeCell s) (nameInput s) (errorMsg s)
    (bookingsSnapshotRef s) (effectGen s) (console s)).
(** [setBookings] with an updater function; [setBookings(v)] is
    [setBookings (λ _, v)]. *)
Definition setBookings (f : list Booking → list Booking) : M unit :=
  modify (λ s, mkSession (selectedRoom s) (weekStart s) (f (bookings s))
    (loading s) (modalOpen s) (modalMode s) (activeCell s) (nameInput s)
    (errorMsg s) (bookingsSnapshotRef s) (effectGen s) (console s)).
Definition setLoading (v : bool) : M unit :=
  modify (λ s, mkSession (selectedRoom s) (weekStart s) (bookings s) v
    (modalOpen s) (modalMode s) (activeCell s) (nameInput s) (errorMsg s)
    (bookingsSnapshotRef s) (effectGen s) (console s)).
Definition setModalOpen (v : bool) : M unit :=
  modify (λ s, mkSession (selectedRoom s) (weekStart s) (bookings s)
    (loading s) v (modalMode s) (activeCell s) (nameInput s) (errorMsg s)
    (bookingsSnapshotRef s) (effectGen s) (console s)).
Definition setModalMode (v : ModalMode) : M unit :=
  modify (λ s, mkSession (selectedRoom s) (weekStart s) (bookings s)
    (loading s) (modalOpen s) v (activeCell s) (nameInput s) (errorMsg s)
    (bookingsSnapshotRef s) (effectGen s) (console s)).
Definition setActiveCell (v : option Cell) : M unit :=
  modify (λ s, mkSession (selectedRoom s) (weekStart s) (bookings s)
    (loading s) (modalOpen s) (modalMode s) v (nameInput s) (errorMsg s)
    (bookingsSnapshotRef s) (effectGen s) (console s)).
Definition setNameInput (v : jsstring) : M unit :=
  modify (λ s, mkSession (selectedRoom s) (weekStart s) (bookings s)
    (loading s) (modalOpen s) (modalMode s) (activeCell s) v (errorMsg s)
    (bookingsSnapshotRef s) (effectGen s) (console s)).
Definition setErrorMsg (v : jsstring) : M unit :=
  modify (λ s, mkSession (selectedRoom s) (weekStart s) (bookings s)
    (loading s) (modalOpen s) (modalMode s) (activeCell s) (nameInput s) v
    (bookingsSnapshotRef s) (effectGen s) (console s)).
(** [bookingsSnapshotRef.current = v] *)
Definition setSnapshot (v : list Booking) : M unit :=
  modify (λ s, mkSession (selectedRoom s) (weekStart s) (bookings s)
    (loading s) (modalOpen s) (modalMode s) (activeCell s) (nameInput s)
    (errorMsg s) v (effectGen s) (console s)).
(** The cleanup of the room effect sets its [isMounted] to false: calls
    in flight now belong to an older generation. *)
Definition cleanupEffect : M unit :=
  modify (λ s, mkSession (selectedRoom s) (weekStart s) (bookings s)
    (loading s) (modalOpen s) (modalMode s) (activeCell s) (nameInput s)
    (errorMsg s) (bookingsSnapshotRef s) (S (effectGen s)) (console s)).
Definition console_error (args : list ConsoleArg) : M unit :=
  modify (λ s, mkSession (selectedRoom s) (weekStart s) (bookings s)
    (loading s) (modalOpen s) (modalMode s) (activeCell s) (nameInput s)
    (errorMsg s) (bookingsSnapshotRef s) (effectGen s)
    (console s ++ [args])).

(** The user-visible messages. *)
Definition msgEnterName : jsstring := js "Indtast venligst dit navn.".
Definition msgAlreadyBooked : jsstring := js "Tidsrummet er allerede booket.".
Definition msgSaveFailed : jsstring := js "Kunne ikke gemme booking. Prøv igen.".
Definition msgDeleteFailed : jsstring := js "Kunne ikke slette booking. Prøv igen.".

(** The first session: [useState] initial values; [now] is [new Date()]. *)
Definition initial (now : Date) : Session :=
  {| selectedRoom := None;
     weekStart := startOfWeekMonday now;
     bookings := [];
     loading := true;
     modalOpen := false;
     modalMode := ModeCreate;
     activeCell := None;
     nameInput := [];
     errorMsg := [];
     bookingsSnapshotRef := [];
     effectGen := O;
     console := [] |}.

(** Calls to the store that are in flight, each with the variables its
    continuation has closed over. *)
Record PendingInsert := mkPendingInsert {
  pi_activeCell : Cell;
  pi_name : jsstring;
  pi_id : jsstring
}.

Record PendingDelete := mkPendingDelete { pd_id : jsstring }.

Record PendingFetch := mkPendingFetch {
  pf_room : jsstring;
  pf_gen : nat
}.

(** How an awaited store call settles: the promise resolves with
    [{ data, error }] or rejects. *)
Inductive Outcome :=
| Resolved (data : option (list Row)) (error : option StoreError)
| Rejected (reason : StoreError).

(** The error the [try] block ends with, if any: [if (error) throw error]
    after a resolved call, or the rejection itself. *)
Definition thrown (out : Outcome) : option StoreError :=
  match out with
  | Resolved _ error => error
  | Rejected reason => Some reason
  end.

Definition openCreateModal (room date : jsstring) (startMins : Z) : M unit :=
  setErrorMsg [] ;;
  setModalMode ModeCreate ;;
  setActiveCell (Some (mkCell room date startMins)) ;;
  setNameInput [] ;;
  setModalOpen true.

Definition openDeleteModal (room date : jsstring) (startMins : Z) : M unit :=
  setErrorMsg [] ;;
  setModalMode ModeDelete ;;
  setActiveCell (Some (mkCell room date startMins)) ;;
  setNameInput [] ;;
  setModalOpen true.

Definition closeModal : M unit :=
  setModalOpen false ;;
  setActiveCell None ;;
  setNameInput [] ;;
  setErrorMsg [].

(** [confirmCreate] (lines 245-277) up to its [await]: the store call it
    issues, if any. *)
Definition confirmCreate : M (option PendingInsert) :=
  cell ← gets activeCell;
  match cell with
  | None => mret None
  | Some activeCell =>
    input ← gets nameInput;
    let name := JSString.trim input in
    if negb (JSString.truthy name) then
      setErrorMsg msgEnterName ;; mret None
    else
      let id := keyOfCell activeCell in
      idx ← gets (λ s, bookingsIndex (bookings s));
      if bool_decide (is_Some (idx !! id)) then
        setErrorMsg msgAlreadyBooked ;; mret None
      else
        setBookings (λ prev,
          let next := removeAt activeCell prev in
          next ++ [{| room := cell_room activeCell;
                      date := cell_date activeCell;
                      startMins := cell_startMins activeCell;
                      name := name |}]) ;;
        mret (Some (mkPendingInsert activeCell name id))
  end.

(** [confirmCreate] (lines 279-307) from its [await] on: [closeModal] when
    nothing was thrown, else the [catch] block. *)
Definition confirmCreate_settled (p : PendingInsert) (out : Outcome) : M unit :=
  match thrown out with
  | None => closeModal
  | Some e =>
    console_error [ArgError e] ;;
    setBookings (λ prev, removeAt (pi_activeCell p) prev) ;;
    setErrorMsg msgSaveFailed
  end.

(** [confirmDelete] (lines 310-328) up to its [await]. The [bookings] it
    snapshots is the state of the render the handler belongs to. *)
Definition confirmDelete : M (option PendingDelete) :=
  cell ← gets activeCell;
  match cell with
  | None => mret None
  | Some activeCell =>
    let id := keyOfCell activeCell in
    current ← gets bookings;
    setSnapshot current ;;
    setBookings (λ prev, removeAt activeCell prev) ;;
    mret (Some (mkPendingDelete id))
  end.

(** [confirmDelete] (lines 330-344) from its [await] on. *)
Definition confirmDelete_settled (p : PendingDelete) (out : Outcome) : M unit :=
  match thrown out with
  | None => closeModal
  | Some e =>
    console_error [ArgError e] ;;
    snapshot ← gets bookingsSnapshotRef;
    setBookings (λ _, snapshot) ;;
    setErrorMsg msgDeleteFailed
  end.

(** The body of the room effect, run after [selectedRoom] has changed:
    nothing for no room, else the loading flag and the first fetch. *)
Definition roomEffect : M (option PendingFetch) :=
  sel ← gets selectedRoom;
  match sel with
  | None => mret None
  | Some r =>
    if negb (JSString.truthy r) then mret None
    else
      setLoading true ;;
      gen ← gets effectGen;
      mret (Some (mkPendingFetch r gen))
  end.

(** [setSelectedRoom(room)] from the room selection, with the effect
    cleanup and re-run that a changed room triggers. *)
Definition selectRoom (r : option jsstring) : M (option PendingFetch) :=
  old ← gets selectedRoom;
  setSelectedRoom r ;;
  if bool_decide (old = r) then mret None
  else cleanupEffect ;; roomEffect.

(** [fetchBookings] (lines 167-192) from its [await] on. A rejected
    promise ends the function with an unhandled rejection and no state
    change. *)
Definition fetchBookings_settled (p : PendingFetch) (out : Outcome) : M unit :=
  match out with
  | Rejected _ => mret tt
  | Resolved data error =>
    gen ← gets effectGen;
    let isMounted := bool_decide (pf_gen p = gen) in
    match error with
    | Some e =>
      console_error [ArgText (js "Supabase fejl:"); ArgError e] ;;
      if isMounted then setLoading false else mret tt
    | None =>
      let normalized := normalizeBookings (map rawOfRow (default [] data)) in
      if isMounted then
        setBookings (λ _, normalized) ;; setLoading false
      else mret tt
    end
  end.

(** The realtime callback of the current effect: a change in the selected
    room starts another fetch. *)
Definition onPostgresChange (changedRoom : option jsstring)
  : M (option PendingFetch) :=
  sel ← gets selectedRoom;
  match sel with
  | Some r =>
    if negb (JSString.truthy r) then mret None
    else if bool_decide (changedRoom = Some r) then
      gen ← gets effectGen;
      mret (Some (mkPendingFetch r gen))
    else mret None
  | None => mret None
  end.

Definition onClickSlot (dateObj : Date) (startMins : Z) : M unit :=
  sel ← gets selectedRoom;
  match sel with
  | None => mret tt
  | Some selectedRoom =>
    if negb (JSString.truthy selectedRoom) then mret tt
    else
      let date := toISODate dateObj in
      let key := bookingKey selectedRoom date startMins in
      idx ← gets (λ s, bookingsIndex (bookings s));
      match idx !! key with
      | Some _ => openDeleteModal selectedRoom date startMins
      | None => openCreateModal selectedRoom date startMins
      end
  end.

(** [now] is the [new Date()] the handler reads. *)
Definition resetToRoomSelection (now : Date) : M (option PendingFetch) :=
  r ← selectRoom None;
  setWeekStart (startOfWeekMonday now) ;;
  mret r.

(** The two week buttons of the calendar view. *)
Definition previousWeek : M unit :=
  w ← gets weekStart; setWeekStart (addDays w (-7)).

Definition nextWeek : M unit :=
  w ← gets weekStart; setWeekStart (addDays w 7).

(** ** The session as an event-driven machine *)

Definition ROOMS : list jsstring :=
  [js "Lokale 301 (22 personer)";
   js "Lokale 308 (6 personer)";
   js "Lokale 315 (6 personer)"].

(** [Array.from({ length: 5 }, (_, i) => addDays(weekStart, i))] *)
Definition weekDays (weekStart : Date) : list Date :=
  map (λ i, addDays weekStart i) [0; 1; 2; 3; 4].

Inductive Request :=
| ReqInsert (p : PendingInsert)
| ReqDelete (p : PendingDelete)
| ReqFetch (p : PendingFetch).

(** A session together with its store calls in flight. *)
Record World := mkWorld {
  session : Session;
  inflight : list Request
}.

(** What can happen to an open session: the user's actions on the
    controls that are on screen, a realtime notification, and the
    settling of the [i]-th call in flight. *)
Inductive Event :=
| EvSelectRoom (room : jsstring)
| EvBack (now : Date)
| EvPreviousWeek
| EvNextWeek
| EvClickSlot (dayIndex slotIndex : nat)
| EvType (value : jsstring)
| EvCloseModal
| EvConfirmCreate
| EvConfirmDelete
| EvPostgresChange (changedRoom : option jsstring)
| EvInsertSettled (i : nat) (out : Outcome)
| EvDeleteSettled (i : nat) (out : Outcome)
| EvFetchSettled (i : nat) (out : Outcome).

Definition roomShown (s : Session) : bool :=
  match selectedRoom s with
  | Some r => JSString.truthy r
  | None => false
  end.

Definition modalShows (mode : ModalMode) (s : Session) : bool :=
  modalOpen s &&
  match modalMode s, mode with
  | ModeCreate, ModeCreate | ModeDelete, ModeDelete => true
  | _, _ => false
  end.

(** Run a handler and put the call it issued, if any, in flight. *)
Definition issue {P} (mk : P → Request) (m : M (option P)) (w : World) : World :=
  let '(r, s) := m (session w) in
  mkWorld s (inflight w ++ match r with Some p => [mk p] | None => [] end).

Definition handle (m : M unit) (w : World) : World :=
  mkWorld (exec m (session w)) (inflight w).

(** The [i]-th call in flight settles: it leaves the list and its
    continuation runs. *)
Definition settle (i : nat) (k : Request → option (M unit)) (w : World) : World :=
  match inflight w !! i with
  | Some r =>
    match k r with
    | Some m => mkWorld (exec m (session w)) (delete i (inflight w))
    | None => w
    end
  | None => w
  end.

(** One event. An event whose control is not on screen, or that names no
    call in flight, leaves the world as it is. *)
Definition step (w : World) (e : Event) : World :=
  let s := session w in
  match e with
  | EvSelectRoom r =>
    if negb (roomShown s) && bool_decide (r ∈ ROOMS)
    then issue ReqFetch (selectRoom (Some r)) w else w
  | EvBack now =>
    if roomShown s then issue ReqFetch (resetToRoomSelection now) w else w
  | EvPreviousWeek => if roomShown s then handle previousWeek w else w
  | EvNextWeek => if roomShown s then handle nextWeek w else w
  | EvClickSlot i j =>
    if roomShown s then
      match weekDays (weekStart s) !! i, buildSlots !! j with
      | Some d, Some sl => handle (onClickSlot d (slot_startMins sl)) w
      | _, _ => w
      end
    else w
  | EvType v => if modalShows ModeCreate s then handle (setNameInput v) w else w
  | EvCloseModal => if modalOpen s then handle closeModal w else w
  | EvConfirmCreate =>
    if modalShows ModeCreate s then issue ReqInsert confirmCreate w else w
  | EvConfirmDelete =>
    if modalShows ModeDelete s then issue ReqDelete confirmDelete w else w
  | EvPostgresChange changedRoom => issue ReqFetch (onPostgresChange changedRoom) w
  | EvInsertSettled i out =>
    settle i (λ r, match r with
                   | ReqInsert p => Some (confirmCreate_settled p out)
                   | _ => None end) w
  | EvDeleteSettled i out =>
    settle i (λ r, match r with
                   | ReqDelete p => Some (confirmDelete_settled p out)
                   | _ => None end) w
  | EvFetchSettled i out =>
    settle i (λ r, match r with
                   | ReqFetch p => Some (fetchBookings_settled p out)
                   | _ => None end) w
  end.

Definition run (w : World) (trace : list Event) : World := foldl step w trace.

Definition start (now : Date) : World := mkWorld (initial now) [].

(** The worlds an open session can be in. *)
Inductive reachable : World → Prop :=
| reachable_start now : reachable (start now)
| reachable_step w e : reachable w → reachable (step w e).

(** ** Notions the properties are stated with *)

(** Two dates in the same month of the same year. *)
Definition sameMonth (a b : Date) : Prop :=
  getFullYear a = getFullYear b ∧ getMonth a = getMonth b.

(** The five days Monday..Friday of the week that starts at [monday] lie
    in one month. *)
Definition withinOneMonth (monday : Date) : Prop :=
  ∀ i, 0 <= i <= 4 → sameMonth monday (addDays monday i).

(** A week start as the calendar expects it: a Monday, at midnight. *)
Definition mondayMidnight (d : Date) : Prop :=
  getDay d = 1 ∧ TimeWithinDay (timeValue d) = 0.

(** No two bookings of the collection share (room, date, startMins). *)
Definition keyUnique (bs : list Booking) : Prop := NoDup (map cellOf bs).

(** The events of a session in which every confirmation succeeds: the
    user opens, fills, cancels and confirms the create and delete flows
    and moves between weeks, and every insert or delete call that settles
    settles without an error. *)
Definition confirmationEvent (e : Event) : bool :=
  match e with
  | EvPreviousWeek | EvNextWeek | EvClickSlot _ _ | EvType _ | EvCloseModal
  | EvConfirmCreate | EvConfirmDelete => true
  | EvInsertSettled _ out | EvDeleteSettled _ out =>
    match thrown out with None => true | Some _ => false end
  | _ => false
  end.

(** Sample data: room 308 in the week of Monday 2025-03-10, where Ida
    holds the slot at 10:00. *)
Definition room308 : jsstring := js "Lokale 308 (6 personer)".

Definition monday_2025_03_10 : Date := ofCivil 2025 2 10.

Definition cell_10_00 : Cell := mkCell room308 (js "2025-03-10") 600.

Definition ida : Booking :=
  {| room := room308; date := js "2025-03-10"; startMins := 600;
     name := js "Ida" |}.

Definition idaRow : Row :=
  mkRow (JSStr room308) (JSStr (js "2025-03-10")) (JSNumber 600)
        (JSStr (js "Ida")).

(** A row whose name is only blanks. *)
Definition blankRow : Row :=
  mkRow (JSStr room308) (JSStr (js "2025-03-10")) (JSNumber 600)
        (JSStr (js "   ")).

(** The store is unreachable: the call resolves with an error object. *)
Definition storeDown : Outcome :=
  Resolved None (Some (mkStoreError [] (js "TypeError: Failed to fetch"))).

(** The insert lost the race for the key. *)
Definition conflict : Outcome := Resolved None (Some uniqueViolation).

(** The user opens room 308 on an empty table, clicks Monday 10:00, types
    a name and confirms; the insert then fails on the unique key. *)
Definition lostRace : list Event :=
  [ EvSelectRoom room308;
    EvFetchSettled 0 (Resolved (Some []) None);
    EvClickSlot 0 2;
    EvType (js "Ida");
    EvConfirmCreate;
    EvInsertSettled 0 conflict ].

(** The user opens room 308, where Ida holds Monday 10:00, clicks that
    slot and presses the delete button twice while the store is down. *)
Definition doubleDelete : list Event :=
  [ EvSelectRoom room308;
    EvFetchSettled 0 (Resolved (Some [idaRow]) None);
    EvClickSlot 0 2;
    EvConfirmDelete;
    EvConfirmDelete;
    EvDeleteSettled 0 storeDown;
    EvDeleteSettled 0 storeDown ].

(** The user opens room 308, goes back, and opens it again while the
    store is down. *)
Definition reopenOffline : list Event :=
  [ EvSelectRoom room308;
    EvFetchSettled 0 (Resolved (Some [idaRow]) None);
    EvBack monday_2025_03_10;
    EvSelectRoom room308;
    EvFetchSettled 0 storeDown ].

(** The session just before the confirmation in [lostRace]: the create
    modal is open on Monday 10:00 and the name is typed. *)
Definition readyToCreate : Session :=
  session (run (start monday_2025_03_10) (take 4 lostRace)).

(** The session of [lostRace] while the insert is in flight, and the
    insert call. *)
Definition optimisticCreate : Session :=
  session (run (start monday_2025_03_10) (take 5 lostRace)).

Definition pendingIda : PendingInsert :=
  mkPendingInsert cell_10_00 (js "Ida") (keyOfCell cell_10_00).

(** The session just before the first confirmation in [doubleDelete]:
    the delete modal is open on Ida's booking. *)
Definition readyToDelete : Session :=
  session (run (start monday_2025_03_10) (take 3 doubleDelete)).

(** Room 308 is open on an empty table; the user books Monday 10:00 as
    Ida and releases the slot again, and the store accepts both calls. *)
Definition roomOpen : World :=
  run (start monday_2025_03_10) (take 2 lostRace).

Definition bookThenRelease : list Event :=
  [ EvClickSlot 0 2;
    EvType (js "Ida");
    EvConfirmCreate;
    EvInsertSettled 0 (Resolved None None);
    EvClickSlot 0 2;
    EvConfirmDelete;
    EvDeleteSettled 0 (Resolved None None) ].

(** The user opens room 308 and moves two weeks ahead. *)
Definition twoWeeksAhead : World :=
  step (step (step (start monday_2025_03_10) (EvSelectRoom room308))
             EvNextWeek) EvNextWeek.

(** The booking [confirmCreate] adds for a cell and a typed name. *)
Definition newBooking (c : Cell) (input : jsstring) : Booking :=
  {| room := cell_room c; date := cell_date c; startMins := cell_startMins c;
     name := JSString.trim input |}.

(** ** Further notions: keys on screen and well-formed requests *)

(** A string without the underscore that [bookingKey] separates with. *)
Definition underscoreFree (s : jsstring) : Prop := Forall (λ c, c ≠ 95%N) s.

(** A string of whitespace only (the empty string included). *)
Definition blank (s : jsstring) : Prop :=
  Forall (λ c, JSString.isWhiteSpace c = true) s.

(** The React keys of the calendar grid ([CalendarView], lines 619-656):
    the header cells are keyed by [toISODate(d)], the rows by
    [s.startMins], the cells of a row by [bookingKey(room, date,
    s.startMins)]. *)
Definition headerKeys (weekStart : Date) : list jsstring :=
  map toISODate (weekDays weekStart).

Definition rowKeys : list Z := map slot_startMins buildSlots.

Definition cellKeys (room : jsstring) (weekStart : Date) (s : Slot)
  : list jsstring :=
  map (λ d, bookingKey room (toISODate d) (slot_startMins s))
      (weekDays weekStart).

(** What a slot cell shows ([SlotCell], lines 707-735): the booker's name,
    or [Ledig] for a free slot. *)
Definition slotCellText (existing : option Booking) : jsstring :=
  match existing with
  | Some b => name b
  | None => js "Ledig"
  end.

(** The cell of the grid in column [d], row [s] ([CalendarView], lines
    641-652). *)
Definition cellText (room : jsstring) (bookings : list Booking)
    (d : Date) (s : Slot) : jsstring :=
  let date := toISODate d in
  let key := bookingKey room date (slot_startMins s) in
  let existing := bookingsIndex bookings !! key in
  slotCellText existing.

(** A cell the calendar can open a modal for: a listed room, the date of
    a Monday..Friday, one of the nine slots. *)
Definition bookable (c : Cell) : Prop :=
  cell_room c ∈ ROOMS
  ∧ (∃ d, cell_date c = toISODate d ∧ 1 <= getDay d <= 5)
  ∧ cell_startMins c ∈ rowKeys.

(** An insert call as the store should receive it. *)
Definition wellFormedInsert (p : PendingInsert) : Prop :=
  bookable (pi_activeCell p)
  ∧ pi_id p = keyOfCell (pi_activeCell p)
  ∧ pi_name p ≠ []
  ∧ JSString.trim (pi_name p) = pi_name p.

(** A fetch in flight that may still write to the session was issued for
    the room that is selected now. *)
Definition fetchesCurrent (w : World) : Prop :=
  ∀ p, ReqFetch p ∈ inflight w →
    (pf_gen p ≤ effectGen (session w))%nat
    ∧ (pf_gen p = effectGen (session w) →
       selectedRoom (session w) = Some (pf_room p)).

(** What holds of every world an open session can reach (see
    [reachable_sound]). *)
Definition knownMessages : list jsstring :=
  [ []; msgEnterName; msgAlreadyBooked; msgSaveFailed; msgDeleteFailed ].

Definition sound (w : World) : Prop :=
  mondayMidnight (weekStart (session w))
  ∧ (∀ r, selectedRoom (session w) = Some r → r ∈ ROOMS)
  ∧ (∀ c, activeCell (session w) = Some c → bookable c)
  ∧ (modalOpen (session w) = true ↔ is_Some (activeCell (session w)))
  ∧ errorMsg (session w) ∈ knownMessages
  ∧ (∀ p, ReqInsert p ∈ inflight w → wellFormedInsert p)
  ∧ (∀ p, ReqDelete p ∈ inflight w →
       ∃ c, bookable c ∧ pd_id p = keyOfCell c)
  ∧ fetchesCurrent w.

(** A fetch result, if the event is one, has no two rows with the same
    (room, date, start minute) among the well-typed ones. *)
Definition uniqueFetch (e : Event) : Prop :=
  match e with
  | EvFetchSettled _ (Resolved data None) =>
    keyUnique (normalizeBookings (map rawOfRow (default [] data)))
  | _ => True
  end.

(** Worlds of [lostRace]: the first fetch in flight, and the insert in
    flight. *)
Definition fetchInFlight : World :=
  run (start monday_2025_03_10) (take 1 lostRace).

Definition insertInFlight : World :=
  run (start monday_2025_03_10) (take 5 lostRace).

(** The first fetch of room 308. *)
Definition firstFetch : PendingFetch := mkPendingFetch room308 1.

(** The session of [reopenOffline] after the way back: no room is
    selected and the collection still holds Ida's booking. *)
Definition backInSelection : Session :=
  session (run (start monday_2025_03_10) (take 3 reopenOffline)).

(** A call that rejects instead of resolving. *)
Definition networkReject : Outcome :=
  Rejected (mkStoreError [] (js "TypeError: Failed to fetch")).

(** Room 308 is opened, left and opened again while the fetch of the
    first visit is still in flight: two fetches of room 308 are in flight,
    the first of them from the effect run that was cleaned up. *)
Definition reopened : World :=
  run (start monday_2025_03_10)
    [ EvSelectRoom room308; EvBack monday_2025_03_10; EvSelectRoom room308 ].

(** ** Proof automation for the handlers *)

(** Unfold the handlers and the monad, but nothing of the calendar, the
    strings or the index. *)
Ltac unfold_handlers :=
  cbv beta iota zeta delta
    [step issue handle settle exec selectRoom resetToRoomSelection roomEffect
     previousWeek nextWeek onClickSlot openCreateModal openDeleteModal
     closeModal confirmCreate confirmCreate_settled confirmDelete
     confirmDelete_settled fetchBookings_settled onPostgresChange
     cleanupEffect console_error setSelectedRoom setWeekStart setBookings
     setLoading setModalOpen setModalMode setActiveCell setNameInput
     setErrorMsg setSnapshot gets modify mbind M_bind mret M_ret
     selectedRoom weekStart bookings loading modalOpen modalMode activeCell
     nameInput errorMsg bookingsSnapshotRef effectGen console
     session inflight fst snd thrown roomShown modalShows] in *.

Ltac inject_state :=
  repeat match goal with
         | H : mkSession _ _ _ _ _ _ _ _ _ _ _ _
               = mkSession _ _ _ _ _ _ _ _ _ _ _ _ |- _ =>
           injection H; clear H; intros; subst
         | H : mkWorld _ _ = mkWorld _ _ |- _ =>
           injection H; clear H; intros; subst
         | H : (_, _) = (_, _) |- _ => injection H; clear H; intros; subst
         | H : Some _ = Some _ |- _ => injection H; clear H; intros; subst
         | H : Some _ = None |- _ => discriminate H
         | H : None = Some _ |- _ => discriminate H
         end.

Ltac crunch_step :=
  unfold_handlers; inject_state;
  repeat (case_match; unfold_handlers; inject_state).

(** Boolean tests in hypotheses, as propositions. *)
Ltac andb_hyps :=
  repeat match goal with
         | H : _ && _ = true |- _ => apply andb_true_iff in H as [? ?]
         | H : bool_decide _ = true |- _ => apply bool_decide_eq_true in H
         | H : bool_decide _ = false |- _ => apply bool_decide_eq_false in H
         | H : negb _ = true |- _ => apply negb_true_iff in H
         | H : negb _ = false |- _ => apply negb_false_iff in H
         end.

(** * Properties *)

(** ** The calendar of ECMA-262 *)

Section Calendar.

Lemma YearFromDay_spec d :
  DayFromYear (YearFromDay d) <= d < DayFromYear (YearFromDay d + 1).
Proof.
  unfold YearFromDay.
  destruct (Z.ltb_spec d (DayFromYear (1970 + d * 400 / 146097))) as [H|H].
  - unfold DayFromYear in *. Z.div_mod_to_equations. lia.
  - destruct (Z.leb_spec (DayFromYear (1970 + d * 400 / 146097 + 1)) d)
      as [H'|H'].
    + unfold DayFromYear in *. Z.div_mod_to_equations. lia.
    + lia.
Qed.

Lemma DayFromYear_succ y : DayFromYear (y + 1) = DayFromYear y + DaysInYear y.
Proof.
  unfold DayFromYear, DaysInYear.
  repeat match goal with
         | |- context [negb (?a =? ?b)] => destruct (Z.eqb_spec a b); simpl
         end; Z.div_mod_to_equations; lia.
Qed.

Lemma DayFromYear_mono y y' : y <= y' → DayFromYear y <= DayFromYear y'.
Proof. unfold DayFromYear. intros. Z.div_mod_to_equations. lia. Qed.

(** The year of a day is determined by the two bounds. *)
Lemma YearFromDay_unique d y :
  DayFromYear y <= d < DayFromYear (y + 1) → YearFromDay d = y.
Proof.
  intros Hy. pose proof (YearFromDay_spec d) as Hs.
  destruct (Z.lt_trichotomy (YearFromDay d) y) as [Hlt|[Heq|Hgt]]; [|done|].
  - pose proof (DayFromYear_mono (YearFromDay d + 1) y ltac:(lia)). lia.
  - pose proof (DayFromYear_mono (y + 1) (YearFromDay d) ltac:(lia)). lia.
Qed.

Lemma DaysInYear_cases y : DaysInYear y = 365 ∨ DaysInYear y = 366.
Proof. unfold DaysInYear. repeat case_match; auto. Qed.

Lemma InLeapYearOf_DaysInYear y : DaysInYear y = 365 + InLeapYearOf y.
Proof.
  unfold InLeapYearOf. destruct (DaysInYear_cases y) as [->| ->]; reflexivity.
Qed.

Lemma DayWithinYear_range t :
  0 <= DayWithinYear t < DaysInYear (YearFromTime t).
Proof.
  unfold DayWithinYear, YearFromTime.
  pose proof (YearFromDay_spec (Day t)) as H.
  rewrite DayFromYear_succ in H. lia.
Qed.

Lemma MonthOfDayWithinYear_range leap dwy :
  0 <= MonthOfDayWithinYear leap dwy <= 11.
Proof. unfold MonthOfDayWithinYear. repeat case_match; lia. Qed.

Lemma MonthFromTime_range t : 0 <= MonthFromTime t <= 11.
Proof. apply MonthOfDayWithinYear_range. Qed.

(** [MakeDay] inverts the decomposition of a day into year, month and
    date, and is linear in the date. *)
Lemma MakeDay_DateFromTime t k :
  MakeDay (YearFromTime t) (MonthFromTime t) (DateFromTime t + k) = Day t + k.
Proof.
  pose proof (MonthFromTime_range t) as Hm.
  unfold MakeDay.
  rewrite Z.div_small, Z.mod_small, Z.add_0_r by lia.
  unfold DateFromTime, InLeapYear, DayWithinYear. lia.
Qed.

Lemma setDate_shift d k :
  timeValue (setDate d (getDate d + k)) = timeValue d + k * msPerDay.
Proof.
  unfold setDate, getDate. simpl. rewrite MakeDay_DateFromTime.
  unfold MakeDate, Day, TimeWithinDay, msPerDay.
  Z.div_mod_to_equations. lia.
Qed.

Lemma addDays_timeValue d k :
  timeValue (addDays d k) = timeValue d + k * msPerDay.
Proof. unfold addDays. rewrite setDate_shift. reflexivity. Qed.

Lemma Day_addDays d k : Day (timeValue (addDays d k)) = Day (timeValue d) + k.
Proof.
  rewrite addDays_timeValue. unfold Day, msPerDay.
  Z.div_mod_to_equations. lia.
Qed.

Lemma TimeWithinDay_addDays d k :
  TimeWithinDay (timeValue (addDays d k)) = TimeWithinDay (timeValue d).
Proof.
  rewrite addDays_timeValue. unfold TimeWithinDay, msPerDay.
  Z.div_mod_to_equations. lia.
Qed.

Lemma Date_eq (a b : Date) : timeValue a = timeValue b → a = b.
Proof. destruct a, b. simpl. congruence. Qed.

Lemma copy_id d : copy d = d.
Proof. destruct d. reflexivity. Qed.

Lemma getDay_range d : 0 <= getDay d <= 6.
Proof. unfold getDay, WeekDay. Z.div_mod_to_equations. lia. Qed.

Lemma startOfWeekMonday_timeValue d :
  timeValue (startOfWeekMonday d)
  = (Day (timeValue d) - (getDay d + 6) mod 7) * msPerDay.
Proof.
  unfold startOfWeekMonday.
  replace (getDate (setHours (copy d) 0 0 0 0) - Z.rem (getDay (copy d) + 6) 7)
    with (getDate (setHours (copy d) 0 0 0 0) + - ((getDay d + 6) mod 7)).
  - rewrite setDate_shift. unfold setHours, copy, MakeDate, MakeTime. simpl. lia.
  - pose proof (getDay_range d). rewrite Z.rem_mod_nonneg by (unfold copy, getDay in *; simpl; lia).
    unfold copy, getDay. simpl. lia.
Qed.

Lemma startOfWeekMonday_Day d :
  Day (timeValue (startOfWeekMonday d))
  = Day (timeValue d) - (getDay d + 6) mod 7.
Proof.
  rewrite startOfWeekMonday_timeValue. unfold Day at 1, msPerDay.
  rewrite Z.div_mul by lia. reflexivity.
Qed.

Lemma startOfWeekMonday_mondayMidnight d : mondayMidnight (startOfWeekMonday d).
Proof.
  split.
  - unfold getDay at 1, WeekDay. rewrite startOfWeekMonday_Day.
    unfold getDay, WeekDay. Z.div_mod_to_equations. lia.
  - rewrite startOfWeekMonday_timeValue. unfold TimeWithinDay, msPerDay.
    apply Z.mod_mul. lia.
Qed.

Lemma addDays_week_mondayMidnight d k :
  mondayMidnight d → mondayMidnight (addDays d (7 * k)).
Proof.
  intros [Hd Ht]. split.
  - unfold getDay, WeekDay in *. rewrite Day_addDays.
    Z.div_mod_to_equations. lia.
  - rewrite TimeWithinDay_addDays. exact Ht.
Qed.

End Calendar.

(** ** Week boundaries *)

(** C6. For every date [d], of any weekday, [startOfWeekMonday d] is a
    Monday at local midnight; [d] lies in the week of seven calendar days
    that starts there (its day is between that Monday and the Monday plus
    six days, and its instant is before the Monday plus seven days); the
    roll-back is [(getDay d + 6) mod 7] days, so a Monday stays on its own
    day and a Sunday goes back six days to the preceding Monday, not one. *)
Theorem startOfWeekMonday_correct (d : Date) :
  let m := startOfWeekMonday d in
  mondayMidnight m
  ∧ Day (timeValue m) <= Day (timeValue d) <= Day (timeValue (addDays m 6))
  ∧ timeValue m <= timeValue d < timeValue (addDays m 7)
  ∧ Day (timeValue m) = Day (timeValue d) - (getDay d + 6) mod 7
  ∧ (getDay d = 1 → Day (timeValue m) = Day (timeValue d))
  ∧ (getDay d = 0 → m = addDays (setHours d 0 0 0 0) (-6)).
Proof.
  intros m. subst m.
  pose proof (startOfWeekMonday_Day d) as HD.
  pose proof (startOfWeekMonday_timeValue d) as HT.
  pose proof (getDay_range d) as Hr.
  split; [apply startOfWeekMonday_mondayMidnight|].
  split; [rewrite Day_addDays, HD; Z.div_mod_to_equations; lia|].
  split.
  { rewrite addDays_timeValue, HT. unfold Day, msPerDay.
    Z.div_mod_to_equations. lia. }
  split; [exact HD|].
  split; [intros H1; rewrite HD, H1; change ((1 + 6) mod 7) with 0; lia|].
  intros H0.
  apply Date_eq. rewrite HT, addDays_timeValue, H0.
  change ((0 + 6) mod 7) with 6.
  unfold setHours, MakeDate, MakeTime. simpl. lia.
Qed.

(** A Sunday afternoon (1970-01-04 15:00) goes back to Monday
    1969-12-29, midnight. *)
Lemma startOfWeekMonday_sunday_witness :
  startOfWeekMonday (mkDate 313200000)
  = addDays (setHours (mkDate 313200000) 0 0 0 0) (-6).
Proof.
  apply (startOfWeekMonday_correct (mkDate 313200000)). reflexivity.
Defined.

(** ** Slots *)

Lemma buildSlots_value :
  buildSlots =
  [ mkSlot 480 (js "08:00-09:00"); mkSlot 540 (js "09:00-10:00");
    mkSlot 600 (js "10:00-11:00"); mkSlot 660 (js "11:00-12:00");
    mkSlot 720 (js "12:00-13:00"); mkSlot 780 (js "13:00-14:00");
    mkSlot 840 (js "14:00-15:00"); mkSlot 900 (js "15:00-16:00");
    mkSlot 960 (js "16:00-17:00") ].
Proof. vm_compute. reflexivity. Qed.

(** The loop ends after nine rounds, whatever fuel is left over. *)
Lemma buildSlots_fuel_enough k :
  buildSlots_fuel (10 + k) = Some buildSlots.
Proof. rewrite buildSlots_value. reflexivity. Qed.

(** C7. Slot generation terminates and yields exactly nine slots, with
    start minutes 480, 540, ..., 960 and the labels 08:00-09:00 through
    16:00-17:00 (24-hour, zero-padded); every label is the one
    [formatSlotLabel] derives from the start; the starts increase strictly
    and each slot's end, its start plus 60 minutes, is the next slot's
    start. *)
Theorem buildSlots_nine_contiguous :
  (∀ k, buildSlots_fuel (10 + k) = Some buildSlots)
  ∧ length buildSlots = 9%nat
  ∧ map slot_startMins buildSlots
    = [480; 540; 600; 660; 720; 780; 840; 900; 960]
  ∧ map slot_label buildSlots
    = [js "08:00-09:00"; js "09:00-10:00"; js "10:00-11:00";
       js "11:00-12:00"; js "12:00-13:00"; js "13:00-14:00";
       js "14:00-15:00"; js "15:00-16:00"; js "16:00-17:00"]
  ∧ Forall (λ s, slot_label s = formatSlotLabel (slot_startMins s)) buildSlots
  ∧ (∀ i a b, buildSlots !! i = Some a → buildSlots !! S i = Some b →
       slot_startMins a < slot_startMins b
       ∧ slot_startMins a + 60 = slot_startMins b).
Proof.
  split; [exact buildSlots_fuel_enough|].
  rewrite buildSlots_value.
  split; [reflexivity|]. split; [reflexivity|]. split; [reflexivity|].
  split.
  - repeat constructor.
  - intros i a b Ha Hb.
    do 9 (destruct i as [|i]; [simpl in Ha, Hb; simplify_eq; simpl; lia|]).
    destruct i; discriminate.
Qed.

(** ** The week-range label *)

Section WeekRange.

Lemma MonthOfDayWithinYear_mono leap a b :
  a <= b → MonthOfDayWithinYear leap a <= MonthOfDayWithinYear leap b.
Proof.
  intros Hab. unfold MonthOfDayWithinYear.
  repeat match goal with
         | |- context [?x <? ?y] => destruct (Z.ltb_spec x y)
         end; lia.
Qed.

Lemma Day_shift t i : Day (t + i * msPerDay) = Day t + i.
Proof. unfold Day, msPerDay. Z.div_mod_to_equations. lia. Qed.

(** A few days later, still inside the same year. *)
Lemma later_same_year t i :
  0 <= i →
  DayWithinYear t + i < DaysInYear (YearFromTime t) →
  YearFromTime (t + i * msPerDay) = YearFromTime t
  ∧ DayWithinYear (t + i * msPerDay) = DayWithinYear t + i.
Proof.
  intros Hi Hlt.
  pose proof (DayWithinYear_range t) as Hr.
  assert (YearFromTime (t + i * msPerDay) = YearFromTime t) as Hy.
  { unfold DayWithinYear, YearFromTime in *. rewrite Day_shift.
    apply YearFromDay_unique. rewrite DayFromYear_succ. lia. }
  split; [exact Hy|].
  unfold DayWithinYear. rewrite Hy, Day_shift. lia.
Qed.

(** Up to four days later, but past the end of the year: January of the
    next year, while the start is in December. *)
Lemma later_next_year t i :
  0 <= i <= 4 →
  DaysInYear (YearFromTime t) <= DayWithinYear t + i →
  YearFromTime (t + i * msPerDay) = YearFromTime t + 1
  ∧ MonthFromTime (t + i * msPerDay) = 0
  ∧ MonthFromTime t = 11.
Proof.
  intros Hi Hge.
  pose proof (DayWithinYear_range t) as Hr.
  pose proof (DaysInYear_cases (YearFromTime t)) as Hc.
  pose proof (DaysInYear_cases (YearFromTime t + 1)) as Hc'.
  pose proof (InLeapYearOf_DaysInYear (YearFromTime t)) as Hl.
  pose proof (DayFromYear_succ (YearFromTime t)) as Hs.
  pose proof (DayFromYear_succ (YearFromTime t + 1)) as Hs'.
  assert (YearFromTime (t + i * msPerDay) = YearFromTime t + 1) as Hy.
  { unfold YearFromTime at 1. rewrite Day_shift.
    apply YearFromDay_unique. unfold DayWithinYear in *. lia. }
  split; [exact Hy|]. split.
  - assert (DayWithinYear (t + i * msPerDay) < 31) as Hlt.
    { unfold DayWithinYear in *. rewrite Hy, Day_shift. lia. }
    unfold MonthFromTime, MonthOfDayWithinYear.
    destruct (Z.ltb_spec (DayWithinYear (t + i * msPerDay)) 31); [done|lia].
  - unfold MonthFromTime, InLeapYear, MonthOfDayWithinYear.
    repeat match goal with
           | |- context [?x <? ?y] => destruct (Z.ltb_spec x y)
           end; lia.
Qed.

Lemma getMonth_eq d : getMonth d = MonthFromTime (timeValue d).
Proof. reflexivity. Qed.

Lemma getFullYear_eq d : getFullYear d = YearFromTime (timeValue d).
Proof. reflexivity. Qed.

Lemma MonthFromTime_eq t :
  MonthFromTime t
  = MonthOfDayWithinYear (InLeapYearOf (YearFromTime t)) (DayWithinYear t).
Proof. reflexivity. Qed.

(** When the fifth day has the month of the first, so has every day in
    between, and all lie in one year. *)
Lemma week_in_one_month t i :
  0 <= i <= 4 →
  MonthFromTime t = MonthFromTime (t + 4 * msPerDay) →
  YearFromTime t = YearFromTime (t + i * msPerDay)
  ∧ MonthFromTime t = MonthFromTime (t + i * msPerDay).
Proof.
  intros Hi Heq.
  destruct (Z.lt_ge_cases (DayWithinYear t + 4)
              (DaysInYear (YearFromTime t))) as [Hlt|Hge].
  - destruct (later_same_year t i) as [Hy Hd]; [lia|lia|].
    destruct (later_same_year t 4) as [Hy4 Hd4]; [lia|lia|].
    split; [symmetry; exact Hy|].
    rewrite (MonthFromTime_eq (t + 4 * msPerDay)), Hy4, Hd4 in Heq.
    rewrite (MonthFromTime_eq (t + i * msPerDay)), Hy, Hd.
    rewrite (MonthFromTime_eq t) in *.
    pose proof (MonthOfDayWithinYear_mono (InLeapYearOf (YearFromTime t))
      (DayWithinYear t) (DayWithinYear t + i) ltac:(lia)).
    pose proof (MonthOfDayWithinYear_mono (InLeapYearOf (YearFromTime t))
      (DayWithinYear t + i) (DayWithinYear t + 4) ltac:(lia)).
    lia.
  - destruct (later_next_year t 4) as (_ & H0 & H11); [lia|lia|].
    rewrite H0, H11 in Heq. discriminate.
Qed.

(** The test of [formatWeekRange], [start.getMonth() === end.getMonth()],
    decides whether Monday..Friday lie in one month. *)
Lemma withinOneMonth_iff m :
  withinOneMonth m ↔ getMonth m = getMonth (addDays m 4).
Proof.
  split.
  - intros H. destruct (H 4 ltac:(lia)) as [_ H4]. exact H4.
  - intros Heq i Hi. unfold sameMonth.
    rewrite !getMonth_eq, !getFullYear_eq in *.
    rewrite addDays_timeValue in *.
    apply week_in_one_month; assumption.
Qed.

End WeekRange.

(** C8. The label of the week starting at [m] (any date, so in particular
    every Monday) is [D.–D. month] when the span Monday..Friday stays
    within one month and [D. month – D. month] when it crosses a month
    boundary, where the two [D] are the day of month of [m] and of [m]
    plus four days; Monday 2025-01-27 gives 27.–31. jan and Monday
    2025-04-28 gives 28. apr – 2. maj. *)
Theorem formatWeekRange_format (m : Date) :
  (withinOneMonth m →
     formatWeekRange m
     = JSString.ofNumber (getDate m) ++ js ".–"
       ++ JSString.ofNumber (getDate (addDays m 4)) ++ js ". "
       ++ index DK_MONTH (getMonth m))
  ∧ (¬ withinOneMonth m →
     formatWeekRange m
     = JSString.ofNumber (getDate m) ++ js ". " ++ index DK_MONTH (getMonth m)
       ++ js " – " ++ JSString.ofNumber (getDate (addDays m 4)) ++ js ". "
       ++ index DK_MONTH (getMonth (addDays m 4)))
  ∧ (getDay (ofCivil 2025 0 27) = 1
     ∧ toISODate (ofCivil 2025 0 27) = js "2025-01-27"
     ∧ formatWeekRange (ofCivil 2025 0 27) = js "27.–31. jan")
  ∧ (getDay (ofCivil 2025 3 28) = 1
     ∧ toISODate (ofCivil 2025 3 28) = js "2025-04-28"
     ∧ formatWeekRange (ofCivil 2025 3 28) = js "28. apr – 2. maj").
Proof.
  split; [|split; [|split; vm_compute; auto]].
  - intros H. apply withinOneMonth_iff in H.
    unfold formatWeekRange. rewrite copy_id.
    apply Z.eqb_eq in H. rewrite H. reflexivity.
  - intros H. rewrite withinOneMonth_iff in H.
    unfold formatWeekRange. rewrite copy_id.
    apply Z.eqb_neq in H. rewrite H. reflexivity.
Qed.

(** The week of Monday 2025-01-27 stays in January. *)
Lemma formatWeekRange_within_witness :
  withinOneMonth (ofCivil 2025 0 27)
  ∧ formatWeekRange (ofCivil 2025 0 27) = js "27.–31. jan".
Proof.
  assert (withinOneMonth (ofCivil 2025 0 27)) as H
    by (apply withinOneMonth_iff; vm_compute; reflexivity).
  split; [exact H|].
  rewrite (proj1 (formatWeekRange_format (ofCivil 2025 0 27)) H).
  vm_compute. reflexivity.
Defined.

(** ** The session machine: what each event does to a field *)

Lemma step_weekStart w e :
  weekStart (session (step w e)) = weekStart (session w)
  ∨ weekStart (session (step w e)) = addDays (weekStart (session w)) (-7)
  ∨ weekStart (session (step w e)) = addDays (weekStart (session w)) 7
  ∨ ∃ now, weekStart (session (step w e)) = startOfWeekMonday now.
Proof.
  destruct w as [s fl]. destruct s. destruct e; crunch_step; eauto.
Qed.

(** C10. The displayed week start is a Monday at local midnight in every
    world an open session can reach: it starts as [startOfWeekMonday] of
    the current date, the week buttons move it by exactly seven days, the
    way back to the room selection sets it to [startOfWeekMonday] again,
    and no other event touches it. *)
Theorem weekStart_always_monday (w : World) :
  reachable w → mondayMidnight (weekStart (session w)).
Proof.
  induction 1 as [now|w e Hw IH].
  - apply startOfWeekMonday_mondayMidnight.
  - destruct (step_weekStart w e) as [->|[->|[->|[now ->]]]].
    + exact IH.
    + apply (addDays_week_mondayMidnight _ (-1)), IH.
    + apply (addDays_week_mondayMidnight _ 1), IH.
    + apply startOfWeekMonday_mondayMidnight.
Qed.

(** Two weeks ahead in room 308. *)
Lemma weekStart_monday_witness :
  mondayMidnight (weekStart (session twoWeeksAhead)).
Proof.
  apply (weekStart_always_monday twoWeeksAhead).
  unfold twoWeeksAhead. repeat apply reachable_step. apply reachable_start.
Defined.

(** ** Bookings, cells and the slot index *)

Section Bookings.

Lemma atCell_true c b : atCell c b = true ↔ cellOf b = c.
Proof.
  unfold atCell, cellOf. destruct c as [r d m]. simpl.
  rewrite !andb_true_iff, !bool_decide_eq_true, Z.eqb_eq.
  split; [intros [[-> ->] ->]; reflexivity|].
  intros H. injection H as -> -> ->. done.
Qed.

Lemma atCell_false c b : atCell c b = false ↔ cellOf b ≠ c.
Proof.
  rewrite <- atCell_true. destruct (atCell c b); split; congruence.
Qed.

Lemma keyOf_cellOf b : keyOf b = keyOfCell (cellOf b).
Proof. reflexivity. Qed.

Lemma elem_of_removeAt c b bs : b ∈ removeAt c bs ↔ b ∈ bs ∧ cellOf b ≠ c.
Proof.
  unfold removeAt. rewrite !list_elem_of_In, List.filter_In.
  rewrite negb_true_iff, atCell_false. reflexivity.
Qed.

(** Nothing is removed when no booking sits at the cell. *)
Lemma removeAt_absent c bs : (∀ b, b ∈ bs → cellOf b ≠ c) → removeAt c bs = bs.
Proof.
  induction bs as [|b bs IH]; intros H; [reflexivity|].
  unfold removeAt in *. simpl.
  assert (atCell c b = false) as -> by (apply atCell_false, H; left).
  simpl. f_equal. apply IH. intros b' Hb'. apply H. by right.
Qed.

(** Removing the cell of the last element takes exactly that element
    away when no earlier booking sits at the cell. *)
Lemma removeAt_app_new c bs b :
  cellOf b = c → removeAt c (bs ++ [b]) = removeAt c bs.
Proof.
  intros Hb. unfold removeAt. rewrite List.filter_app. simpl.
  apply atCell_true in Hb. rewrite Hb. simpl. apply app_nil_r.
Qed.

Lemma cells_removeAt c bs : c ∉ map cellOf (removeAt c bs).
Proof.
  intros H. apply list_elem_of_fmap in H as (b & -> & Hb).
  apply elem_of_removeAt in Hb as [_ Hne]. by apply Hne.
Qed.

Lemma keyUnique_removeAt c bs : keyUnique bs → keyUnique (removeAt c bs).
Proof.
  unfold keyUnique, removeAt. induction bs as [|b bs IH]; simpl; [done|].
  intros Hnd. apply NoDup_cons in Hnd as [Hnotin Hnd].
  destruct (negb (atCell c b)); simpl; [|by apply IH].
  apply NoDup_cons. split; [|by apply IH].
  intros Hin. apply Hnotin.
  apply list_elem_of_fmap in Hin as (b' & Heq & Hb').
  apply list_elem_of_fmap. exists b'. split; [done|].
  apply (elem_of_removeAt c) in Hb'. tauto.
Qed.

Lemma keyUnique_create c bs b :
  cellOf b = c → keyUnique bs → keyUnique (removeAt c bs ++ [b]).
Proof.
  intros Hb Hnd. unfold keyUnique. rewrite map_app. simpl.
  apply NoDup_app. split; [by apply keyUnique_removeAt|]. split.
  - intros x Hx Hx'. apply list_elem_of_singleton in Hx'. subst x.
    rewrite Hb in Hx. by apply cells_removeAt in Hx.
  - apply NoDup_singleton.
Qed.

Lemma foldl_index_lookup_None (bs : list Booking)
    (m : gmap jsstring Booking) (k : jsstring) :
  foldl (λ map b, <[keyOf b := b]> map) m bs !! k = None
  ↔ m !! k = None ∧ ∀ b, b ∈ bs → keyOf b ≠ k.
Proof.
  revert m. induction bs as [|b bs IH]; intros m; simpl.
  - split; [intros H; split; [done|]|tauto].
    intros b Hb. by apply elem_of_nil in Hb.
  - rewrite IH, lookup_insert_None. split.
    + intros [[Hm Hne] Hbs]. split; [done|].
      intros b' Hb'. apply elem_of_cons in Hb' as [->|Hb']; auto.
    + intros [Hm Hall]. split; [split; [done|]|].
      * apply Hall. left.
      * intros b' Hb'. apply Hall. by right.
Qed.

(** The index has no entry at a key exactly when no booking of the
    collection has that key. *)
Lemma bookingsIndex_lookup_None (bs : list Booking) (k : jsstring) :
  bookingsIndex bs !! k = None ↔ ∀ b, b ∈ bs → keyOf b ≠ k.
Proof.
  unfold bookingsIndex. rewrite foldl_index_lookup_None, lookup_empty. tauto.
Qed.

(** A free key means a free cell. *)
Lemma free_key_free_cell (bs : list Booking) (c : Cell) :
  bookingsIndex bs !! keyOfCell c = None → ∀ b, b ∈ bs → cellOf b ≠ c.
Proof.
  intros Hk b Hb Hc. apply (proj1 (bookingsIndex_lookup_None _ _) Hk b Hb).
  rewrite keyOf_cellOf, Hc. reflexivity.
Qed.

Lemma cellOf_newBooking c input : cellOf (newBooking c input) = c.
Proof. destruct c. reflexivity. Qed.

Lemma truthy_true s : JSString.truthy s = true ↔ s ≠ [].
Proof. destruct s; simpl; split; congruence. Qed.

End Bookings.

(** ** Confirm create *)

Section ConfirmCreate.

(** What [confirmCreate] does when it passes both checks. *)
Lemma confirmCreate_issues s c :
  activeCell s = Some c →
  JSString.trim (nameInput s) ≠ [] →
  bookingsIndex (bookings s) !! keyOfCell c = None →
  confirmCreate s
  = (Some (mkPendingInsert c (JSString.trim (nameInput s)) (keyOfCell c)),
     exec (setBookings (λ prev, removeAt c prev ++ [newBooking c (nameInput s)])) s).
Proof.
  intros Hc Hn Hk. destruct s. simpl in *. subst.
  apply truthy_true in Hn.
  unfold confirmCreate. unfold_handlers. rewrite Hn. simpl.
  rewrite bool_decide_eq_false_2; [reflexivity|].
  rewrite Hk. by intros [? ?].
Qed.

(** It issues a call only then. *)
Lemma confirmCreate_inv s p s1 :
  confirmCreate s = (Some p, s1) →
  activeCell s = Some (pi_activeCell p)
  ∧ pi_name p = JSString.trim (nameInput s)
  ∧ JSString.trim (nameInput s) ≠ []
  ∧ bookingsIndex (bookings s) !! keyOfCell (pi_activeCell p) = None.
Proof.
  destruct s. unfold confirmCreate. unfold_handlers.
  destruct activeCell0 as [c|]; [|discriminate].
  destruct (JSString.truthy (JSString.trim nameInput0)) eqn:Hn;
    simpl; [|discriminate].
  destruct (bool_decide _) eqn:Hk; [discriminate|].
  intros H. injection H as <- <-. simpl.
  apply truthy_true in Hn. apply bool_decide_eq_false in Hk.
  repeat split; try done.
  destruct (bookingsIndex bookings0 !! keyOfCell c) eqn:E; [|done].
  exfalso. apply Hk. eauto.
Qed.

(** The local check: an occupied key is refused before any store call,
    with the message that the slot is already booked. *)
Lemma confirmCreate_occupied s c :
  activeCell s = Some c →
  JSString.trim (nameInput s) ≠ [] →
  is_Some (bookingsIndex (bookings s) !! keyOfCell c) →
  confirmCreate s = (None, exec (setErrorMsg msgAlreadyBooked) s).
Proof.
  intros Hc Hn Hk. destruct s. simpl in *. subst.
  apply truthy_true in Hn.
  unfold confirmCreate. unfold_handlers. rewrite Hn. simpl.
  rewrite bool_decide_eq_true_2 by done. reflexivity.
Qed.

(** The continuation after a failed insert. *)
Lemma confirmCreate_settled_failed s p out e :
  thrown out = Some e →
  exec (confirmCreate_settled p out) s
  = mkSession (selectedRoom s) (weekStart s)
      (removeAt (pi_activeCell p) (bookings s)) (loading s) (modalOpen s)
      (modalMode s) (activeCell s) (nameInput s) msgSaveFailed
      (bookingsSnapshotRef s) (effectGen s) (console s ++ [[ArgError e]]).
Proof.
  intros He. destruct s. unfold exec, confirmCreate_settled. rewrite He.
  reflexivity.
Qed.

End ConfirmCreate.

(** How a successful insert settles: the flow closes, the collection
    stays. *)
Lemma confirmCreate_settled_ok s p data :
  bookings (exec (confirmCreate_settled p (Resolved data None)) s) = bookings s
  ∧ modalOpen (exec (confirmCreate_settled p (Resolved data None)) s) = false.
Proof. destruct s. split; reflexivity. Qed.

(** C2. For every booking collection and every create target whose key
    is absent from it (with a name that is not blank): confirm-create
    appends the booking to the collection; when the insert then fails,
    whether the call resolves with an error object of any kind or the
    promise rejects, the collection after the rollback is equal to the
    collection before the optimistic append, element for element; when
    the insert resolves without an error the appended booking stays. *)
Theorem confirmCreate_rollback_exact (s : Session) (c : Cell) :
  activeCell s = Some c →
  JSString.trim (nameInput s) ≠ [] →
  bookingsIndex (bookings s) !! keyOfCell c = None →
  ∃ p s1,
    confirmCreate s = (Some p, s1)
    ∧ bookings s1 = bookings s ++ [newBooking c (nameInput s)]
    ∧ (∀ data e,
         bookings (exec (confirmCreate_settled p (Resolved data (Some e))) s1)
         = bookings s)
    ∧ (∀ e,
         bookings (exec (confirmCreate_settled p (Rejected e)) s1) = bookings s)
    ∧ (∀ data,
         bookings (exec (confirmCreate_settled p (Resolved data None)) s1)
         = bookings s ++ [newBooking c (nameInput s)]).
Proof.
  intros Hc Hn Hk.
  pose proof (free_key_free_cell _ _ Hk) as Hfree.
  eexists _, _. split; [apply (confirmCreate_issues s c Hc Hn Hk)|].
  assert (∀ out e, thrown out = Some e →
            bookings (exec (confirmCreate_settled
              (mkPendingInsert c (JSString.trim (nameInput s)) (keyOfCell c)) out)
              (exec (setBookings
                 (λ prev, removeAt c prev ++ [newBooking c (nameInput s)])) s))
            = bookings s) as Hfail.
  { intros out e He. rewrite (confirmCreate_settled_failed _ _ _ e He).
    destruct s. simpl in *.
    rewrite (removeAt_absent c bookings0 Hfree).
    rewrite removeAt_app_new by apply cellOf_newBooking.
    apply (removeAt_absent c bookings0 Hfree). }
  assert (bookings (exec (setBookings
            (λ prev, removeAt c prev ++ [newBooking c (nameInput s)])) s)
          = bookings s ++ [newBooking c (nameInput s)]) as Happ.
  { destruct s. simpl in *. by rewrite (removeAt_absent c bookings0 Hfree). }
  split; [exact Happ|]. split; [|split].
  - intros data e. apply (Hfail _ e). reflexivity.
  - intros e. apply (Hfail _ e). reflexivity.
  - intros data.
    rewrite (proj1 (confirmCreate_settled_ok _ _ data)). exact Happ.
Qed.

(** Monday 10:00 in room 308 is free and Ida is typed in: the booking is
    appended; the insert that loses the race for the key, the insert that
    finds the store down and the insert whose promise rejects each leave
    the collection empty as before, and the accepted insert leaves Ida's
    booking in it. *)
Lemma confirmCreate_rollback_witness :
  ∃ p s1,
    confirmCreate readyToCreate = (Some p, s1)
    ∧ bookings readyToCreate = []
    ∧ bookings s1 = [ida]
    ∧ bookings (exec (confirmCreate_settled p conflict) s1) = []
    ∧ bookings (exec (confirmCreate_settled p storeDown) s1) = []
    ∧ bookings (exec (confirmCreate_settled p networkReject) s1) = []
    ∧ bookings (exec (confirmCreate_settled p (Resolved None None)) s1) = [ida].
Proof.
  destruct (confirmCreate_rollback_exact readyToCreate cell_10_00)
    as (p & s1 & Hp & Happ & Hres & Hrej & Hok).
  - vm_compute. reflexivity.
  - vm_compute. discriminate.
  - vm_compute. reflexivity.
  - exists p, s1. split; [exact Hp|]. split; [vm_compute; reflexivity|].
    split; [rewrite Happ; vm_compute; reflexivity|].
    split; [apply (Hres None uniqueViolation)|].
    split; [apply (Hres None)|].
    split; [apply Hrej|].
    rewrite (Hok None). vm_compute. reflexivity.
Defined.

(** ** A failed insert *)

(** In [lostRace] the insert fails with the unique-key violation: the
    optimistic booking is rolled back, but the message on screen is the
    general save-failed one, not the already-booked one. *)
Lemma lostRace_generic_message :
  let w := run (start monday_2025_03_10) lostRace in
  bookings (session (run (start monday_2025_03_10) (take 5 lostRace)))
  = [ida]
  ∧ bookings (session w) = []
  ∧ errorMsg (session w) = msgSaveFailed
  ∧ errorMsg (session w) ≠ msgAlreadyBooked.
Proof. vm_compute. repeat split; discriminate. Qed.

(** C1, as the code has it. When the insert of a confirm-create fails,
    with a unique-key conflict or for any other reason, the controller
    logs the error, removes the optimistic booking from the collection,
    leaves the create flow open with the typed name, and shows the one
    save-failed message, which differs from the already-booked message;
    the outcome does not depend on the kind of error. The already-booked
    message is shown only by the local check, when the slot index holds
    the key at confirm time, and then no store call is made. *)
Theorem insert_failure_generic_message
    (s : Session) (p : PendingInsert) (out : Outcome) (e : StoreError) :
  thrown out = Some e →
  let s' := exec (confirmCreate_settled p out) s in
  bookings s' = removeAt (pi_activeCell p) (bookings s)
  ∧ (∀ b, b ∈ bookings s' → cellOf b ≠ pi_activeCell p)
  ∧ errorMsg s' = msgSaveFailed
  ∧ msgSaveFailed ≠ msgAlreadyBooked
  ∧ modalOpen s' = modalOpen s
  ∧ activeCell s' = activeCell s
  ∧ nameInput s' = nameInput s
  ∧ console s' = console s ++ [[ArgError e]]
  ∧ (∀ out' e', thrown out' = Some e' →
       bookings (exec (confirmCreate_settled p out') s) = bookings s'
       ∧ errorMsg (exec (confirmCreate_settled p out') s) = errorMsg s')
  ∧ (∀ s0 c, activeCell s0 = Some c →
       JSString.trim (nameInput s0) ≠ [] →
       is_Some (bookingsIndex (bookings s0) !! keyOfCell c) →
       fst (confirmCreate s0) = None
       ∧ errorMsg (exec confirmCreate s0) = msgAlreadyBooked
       ∧ bookings (exec confirmCreate s0) = bookings s0).
Proof.
  intros He s'. subst s'. rewrite (confirmCreate_settled_failed _ _ _ e He).
  simpl. split; [reflexivity|]. split.
  { intros b Hb. apply elem_of_removeAt in Hb. tauto. }
  split; [reflexivity|]. split; [vm_compute; discriminate|].
  do 4 (split; [reflexivity|]). split.
  - intros out' e' He'. rewrite (confirmCreate_settled_failed _ _ _ e' He').
    split; reflexivity.
  - intros s0 c Hc Hn Hk. unfold exec.
    rewrite (confirmCreate_occupied s0 c Hc Hn Hk). destruct s0.
    repeat split.
Qed.

(** The lost race of [lostRace], at the session with the optimistic
    booking in place. *)
Lemma insert_failure_witness :
  errorMsg (exec (confirmCreate_settled pendingIda conflict) optimisticCreate)
  = msgSaveFailed.
Proof.
  exact (proj1 (proj2 (proj2
    (insert_failure_generic_message optimisticCreate pendingIda conflict
       uniqueViolation eq_refl)))).
Defined.

(** ** Confirm delete *)

Section ConfirmDelete.

(** [confirmDelete] with a cell: snapshot, then optimistic removal. *)
Lemma confirmDelete_issues s c :
  activeCell s = Some c →
  confirmDelete s
  = (Some (mkPendingDelete (keyOfCell c)),
     mkSession (selectedRoom s) (weekStart s) (removeAt c (bookings s))
       (loading s) (modalOpen s) (modalMode s) (activeCell s) (nameInput s)
       (errorMsg s) (bookings s) (effectGen s) (console s)).
Proof. intros Hc. destruct s. simpl in *. subst. reflexivity. Qed.

(** The continuation after a failed delete restores whatever the
    snapshot ref holds at that time. *)
Lemma confirmDelete_settled_failed s p out e :
  thrown out = Some e →
  exec (confirmDelete_settled p out) s
  = mkSession (selectedRoom s) (weekStart s) (bookingsSnapshotRef s)
      (loading s) (modalOpen s) (modalMode s) (activeCell s) (nameInput s)
      msgDeleteFailed (bookingsSnapshotRef s) (effectGen s)
      (console s ++ [[ArgError e]]).
Proof.
  intros He. destruct s. unfold exec, confirmDelete_settled. rewrite He.
  reflexivity.
Qed.

(** As long as no other confirm-delete has overwritten the snapshot
    ref, a failed delete restores the collection of before the
    optimistic removal, whatever else has happened to the session in
    between; the removed booking is back in the slot index, name and
    all. *)
Lemma confirmDelete_rollback_snapshot s c s2 p out e :
  activeCell s = Some c →
  confirmDelete s = (Some p, s2) →
  ∀ s3, bookingsSnapshotRef s3 = bookingsSnapshotRef s2 →
  thrown out = Some e →
  bookings (exec (confirmDelete_settled p out) s3) = bookings s
  ∧ bookingsIndex (bookings (exec (confirmDelete_settled p out) s3))
    = bookingsIndex (bookings s).
Proof.
  intros Hc Hd s3 Hsnap He.
  rewrite (confirmDelete_issues s c Hc) in Hd. injection Hd as <- <-.
  rewrite (confirmDelete_settled_failed _ _ _ e He). simpl in *.
  rewrite Hsnap. split; reflexivity.
Qed.

End ConfirmDelete.

(** C3, where the code departs from it. Ida holds Monday 10:00; the user
    confirms the deletion twice while the store is down. The first
    confirmation snapshots the collection with Ida's booking and removes
    it; the second overwrites the shared snapshot ref with the collection
    without it; when the two calls fail, the collection restored is the
    empty one, not the snapshot of the first confirmation: the booking
    does not reappear in the slot index. *)
Theorem doubleDelete_loses_booking :
  let w1 := run (start monday_2025_03_10) (take 4 doubleDelete) in
  let w2 := run (start monday_2025_03_10) (take 5 doubleDelete) in
  let w3 := run (start monday_2025_03_10) (take 6 doubleDelete) in
  let w := run (start monday_2025_03_10) doubleDelete in
  bookings readyToDelete = [ida]
  ∧ (bookingsSnapshotRef (session w1) = [ida] ∧ bookings (session w1) = [])
  ∧ (bookingsSnapshotRef (session w2) = [] ∧ bookings (session w2) = [])
  ∧ (bookings (session w3) = [] ∧ errorMsg (session w3) = msgDeleteFailed)
  ∧ bookings (session w) = []
  ∧ bookings (session w) ≠ bookings readyToDelete
  ∧ bookingsIndex (bookings (session w)) !! keyOfCell cell_10_00 = None
  ∧ inflight w = [].
Proof. vm_compute. repeat split; discriminate. Qed.

(** ** Fetching a room *)

Section Fetch.

Lemma wellTyped_true r :
  wellTyped r = true
  ↔ ∃ rm d m n, r = mkRaw (JSStr rm) (JSStr d) (JSNumber m) (JSStr n).
Proof.
  destruct r as [rm d m n]. split.
  - destruct rm, d, m, n; try discriminate. intros _. eauto.
  - intros (? & ? & ? & ? & [= -> -> -> ->]). reflexivity.
Qed.

(** The bookings admitted by the validation are exactly those of the
    well-typed rows, with the name trimmed. *)
Lemma elem_of_normalizeBookings rows b :
  b ∈ normalizeBookings (map rawOfRow rows)
  ↔ ∃ row n, row ∈ rows
      ∧ row_room row = JSStr (room b)
      ∧ row_date row = JSStr (date b)
      ∧ row_start_mins row = JSNumber (startMins b)
      ∧ row_name row = JSStr n
      ∧ name b = JSString.trim n.
Proof.
  unfold normalizeBookings. rewrite list_elem_of_fmap. split.
  - intros (r & -> & Hr).
    apply list_elem_of_In, List.filter_In in Hr as [Hin Hwt].
    apply list_elem_of_In, list_elem_of_fmap in Hin as (row & -> & Hrow).
    apply wellTyped_true in Hwt as (rm & d & m & n & Heq).
    destruct row as [rr rd rs rn]. unfold rawOfRow in Heq. simpl in *.
    injection Heq as -> -> -> ->. exists (mkRow (JSStr rm) (JSStr d) (JSNumber m) (JSStr n)), n.
    simpl. done.
  - intros (row & n & Hrow & Hr & Hd & Hs & Hn & Hname).
    exists (rawOfRow row). destruct row as [rr rd rs rn]. simpl in *. subst.
    split; [destruct b; simpl in *; by subst|].
    apply list_elem_of_In, List.filter_In. split; [|reflexivity].
    apply list_elem_of_In, list_elem_of_fmap. eexists. split; [|exact Hrow].
    reflexivity.
Qed.

(** Choosing a room on the selection screen. *)
Lemma selectRoom_issues s r :
  selectedRoom s = None → r ≠ [] →
  selectRoom (Some r) s
  = (Some (mkPendingFetch r (S (effectGen s))),
     mkSession (Some r) (weekStart s) (bookings s) true (modalOpen s)
       (modalMode s) (activeCell s) (nameInput s) (errorMsg s)
       (bookingsSnapshotRef s) (S (effectGen s)) (console s)).
Proof.
  intros Hs Hr. destruct s. simpl in *. subst.
  apply truthy_true in Hr. unfold selectRoom, roomEffect. unfold_handlers.
  rewrite bool_decide_eq_false_2 by discriminate. rewrite Hr. reflexivity.
Qed.

End Fetch.

(** In [reopenOffline] room 308 is opened a second time while the store
    is down: the bookings of the first visit are still in the session
    when the fetch starts, they stay when it fails, and the slot index
    still shows Ida's booking. *)
Lemma reopenOffline_keeps_bookings :
  let w1 := run (start monday_2025_03_10) (take 4 reopenOffline) in
  let w := run (start monday_2025_03_10) reopenOffline in
  (loading (session w1) = true ∧ bookings (session w1) = [ida])
  ∧ bookings (session w) = [ida]
  ∧ bookings (session w) ≠ []
  ∧ selectedRoom (session w) = Some room308
  ∧ bookingsIndex (bookings (session w)) !! keyOfCell cell_10_00 = Some ida.
Proof. vm_compute. repeat split; discriminate. Qed.

(** C4, as the code has it. Choosing a room on the selection screen
    sets the loading flag and starts the fetch, and leaves the booking
    collection as it is. When the fetch succeeds the collection becomes
    the fetched rows with the ill-typed ones (room, date, start minutes
    or name of the wrong type) dropped and the names trimmed, and loading
    ends without a log line. When the store client reports a failure (the
    call resolves with an error object) the session goes on: the failure
    is logged, loading ends, and the collection is still the one of
    before the selection, whatever it held. When the call itself rejects,
    the handler stops where it is: the session is left exactly as the
    selection made it, collection kept, loading still set, nothing
    logged by the code. *)
Theorem selectRoom_fetch (s : Session) (r : jsstring) :
  selectedRoom s = None → r ≠ [] →
  ∃ p s1,
    selectRoom (Some r) s = (Some p, s1)
    ∧ pf_room p = r
    ∧ selectedRoom s1 = Some r
    ∧ loading s1 = true
    ∧ bookings s1 = bookings s
    ∧ (∀ data,
         let s2 := exec (fetchBookings_settled p (Resolved data None)) s1 in
         bookings s2 = normalizeBookings (map rawOfRow (default [] data))
         ∧ loading s2 = false
         ∧ console s2 = console s1)
    ∧ (∀ data e,
         let s2 := exec (fetchBookings_settled p (Resolved data (Some e))) s1 in
         bookings s2 = bookings s
         ∧ loading s2 = false
         ∧ console s2
           = console s1 ++ [[ArgText (js "Supabase fejl:"); ArgError e]])
    ∧ (∀ e, exec (fetchBookings_settled p (Rejected e)) s1 = s1)
    ∧ (∀ rows b,
         b ∈ normalizeBookings (map rawOfRow rows)
         ↔ ∃ row n, row ∈ rows
             ∧ row_room row = JSStr (room b)
             ∧ row_date row = JSStr (date b)
             ∧ row_start_mins row = JSNumber (startMins b)
             ∧ row_name row = JSStr n
             ∧ name b = JSString.trim n).
Proof.
  intros Hs Hr. eexists _, _.
  split; [apply (selectRoom_issues s r Hs Hr)|].
  destruct s. simpl in *.
  do 4 (split; [reflexivity|]). split; [|split; [|split]].
  - intros data. unfold exec, fetchBookings_settled. unfold_handlers.
    rewrite bool_decide_eq_true_2 by reflexivity. simpl. done.
  - intros data e. unfold exec, fetchBookings_settled. unfold_handlers.
    rewrite bool_decide_eq_true_2 by reflexivity. simpl. done.
  - intros e. reflexivity.
  - exact elem_of_normalizeBookings.
Qed.

(** Room 308 chosen again after the way back, with Ida's booking of the
    first visit still in the session: the selection keeps it, a fetch the
    store client reports as failed keeps it, logs and ends loading, a
    rejected call keeps it and leaves loading set, and a fetch that
    succeeds with no rows replaces it by the empty collection. *)
Lemma selectRoom_fetch_witness :
  ∃ p s1,
    selectRoom (Some room308) backInSelection = (Some p, s1)
    ∧ bookings backInSelection = [ida]
    ∧ bookings s1 = [ida]
    ∧ (bookings (exec (fetchBookings_settled p storeDown) s1) = [ida]
       ∧ loading (exec (fetchBookings_settled p storeDown) s1) = false
       ∧ length (console (exec (fetchBookings_settled p storeDown) s1))
         = S (length (console s1)))
    ∧ (bookings (exec (fetchBookings_settled p networkReject) s1) = [ida]
       ∧ loading (exec (fetchBookings_settled p networkReject) s1) = true
       ∧ console (exec (fetchBookings_settled p networkReject) s1) = console s1)
    ∧ bookings (exec (fetchBookings_settled p (Resolved (Some []) None)) s1)
      = [].
Proof.
  destruct (selectRoom_fetch backInSelection room308)
    as (p & s1 & H & _ & _ & Hl & Hb & Hok & Hfail & Hrej & _).
  - vm_compute. reflexivity.
  - vm_compute. discriminate.
  - assert (bookings backInSelection = [ida]) as Hida
      by (vm_compute; reflexivity).
    exists p, s1. split; [exact H|]. split; [exact Hida|].
    split; [by rewrite Hb|]. split; [|split].
    + destruct (Hfail None (mkStoreError [] (js "TypeError: Failed to fetch")))
        as (H1 & H2 & H3).
      split; [by rewrite <- Hida|]. split; [exact H2|].
      unfold storeDown. rewrite H3, length_app. simpl. lia.
    + unfold networkReject. rewrite Hrej.
      split; [by rewrite Hb|]. split; [exact Hl|reflexivity].
    + destruct (Hok (Some [])) as (H1 & _). rewrite H1. reflexivity.
Defined.

(** ** Names *)

Section Trim.

Import JSString.

Lemma trimStart_head s c r : trimStart s = c :: r → isWhiteSpace c = false.
Proof.
  induction s as [|a s IH]; simpl; [discriminate|].
  destruct (isWhiteSpace a) eqn:Ha; [exact IH|].
  intros [= <- <-]. exact Ha.
Qed.

Lemma trimStart_fixed c r : isWhiteSpace c = false → trimStart (c :: r) = c :: r.
Proof. intros H. simpl. rewrite H. reflexivity. Qed.

Lemma trimStart_idem s : trimStart (trimStart s) = trimStart s.
Proof.
  destruct (trimStart s) as [|c r] eqn:E; [reflexivity|].
  apply trimStart_fixed, (trimStart_head s c r E).
Qed.

Lemma trimStart_suffix s : ∃ k, s = k ++ trimStart s.
Proof.
  induction s as [|a s [k IH]]; simpl; [by exists []|].
  destruct (isWhiteSpace a); [|by exists []].
  exists (a :: k). simpl. by rewrite <- IH.
Qed.

Lemma trimEnd_prefix s : ∃ k, s = trimEnd s ++ k.
Proof.
  unfold trimEnd. destruct (trimStart_suffix (rev s)) as [k Hk].
  exists (rev k). rewrite <- rev_app_distr, <- Hk, rev_involutive.
  reflexivity.
Qed.

Lemma trimEnd_idem s : trimEnd (trimEnd s) = trimEnd s.
Proof. unfold trimEnd. by rewrite rev_involutive, trimStart_idem. Qed.

(** Trimming a trimmed string changes nothing. *)
Lemma trim_idem s : trim (trim s) = trim s.
Proof.
  unfold trim.
  assert (trimStart (trimEnd (trimStart s)) = trimEnd (trimStart s)) as ->.
  { destruct (trimEnd_prefix (trimStart s)) as [k Hk].
    destruct (trimEnd (trimStart s)) as [|c r]; [reflexivity|].
    apply trimStart_fixed, (trimStart_head s c (r ++ k)).
    rewrite Hk at 1. reflexivity. }
  apply trimEnd_idem.
Qed.

End Trim.

(** A row whose name is only blanks passes the validation of the fetch:
    the session then holds a booking whose name is empty. *)
Lemma blank_name_admitted :
  let w := run (start monday_2025_03_10)
             [EvSelectRoom room308;
              EvFetchSettled 0 (Resolved (Some [blankRow]) None)] in
  normalizeBookings [rawOfRow blankRow]
  = [{| room := room308; date := js "2025-03-10"; startMins := 600;
        name := [] |}]
  ∧ map name (bookings (session w)) = [[]].
Proof. vm_compute. split; reflexivity. Qed.

(** C9, as the code has it. A booking admitted by the validation of the
    fetch carries the name of its row with the whitespace trimmed, which
    may be empty; a booking added by confirm-create carries the typed
    name with the whitespace trimmed, and that name is not empty. *)
Theorem names_trimmed :
  (∀ rows b, b ∈ normalizeBookings (map rawOfRow rows) →
     JSString.trim (name b) = name b
     ∧ ∃ row n, row ∈ rows ∧ row_name row = JSStr n
                ∧ name b = JSString.trim n)
  ∧ (∀ s p s1, confirmCreate s = (Some p, s1) →
       ∃ b, bookings s1 = removeAt (pi_activeCell p) (bookings s) ++ [b]
            ∧ name b = JSString.trim (nameInput s)
            ∧ name b ≠ []
            ∧ JSString.trim (name b) = name b).
Proof.
  split.
  - intros rows b Hb.
    apply elem_of_normalizeBookings in Hb
      as (row & n & Hrow & _ & _ & _ & Hn & Hname).
    split; [rewrite Hname; apply trim_idem|eauto].
  - intros s p s1 H.
    destruct (confirmCreate_inv s p s1 H) as (Hc & Hp & Hn & Hk).
    rewrite (confirmCreate_issues s _ Hc Hn Hk) in H.
    injection H as _ <-.
    exists (newBooking (pi_activeCell p) (nameInput s)).
    destruct s. simpl in *. repeat split; [done|apply trim_idem].
Qed.

(** Ida typed in on the free Monday 10:00: the booking added carries a
    name that is not empty. *)
Lemma names_trimmed_witness :
  ∃ b, bookings (exec confirmCreate readyToCreate)
       = removeAt cell_10_00 (bookings readyToCreate) ++ [b]
       ∧ name b ≠ [].
Proof.
  destruct (proj2 names_trimmed readyToCreate pendingIda
              (exec confirmCreate readyToCreate))
    as (b & Hb & _ & Hn & _).
  - vm_compute. reflexivity.
  - exists b. split; [exact Hb|exact Hn].
Defined.

(** ** Uniqueness of the composite key *)

Section Uniqueness.

Lemma keyUnique_create_literal c (n : jsstring) bs :
  keyUnique bs →
  keyUnique (removeAt c bs
             ++ [{| room := cell_room c; date := cell_date c;
                    startMins := cell_startMins c; name := n |}]).
Proof. intros H. apply keyUnique_create; [by destruct c|exact H]. Qed.

(** One event of a session whose confirmations all succeed keeps the
    collection free of duplicate keys. *)
Lemma step_confirmation_keyUnique w e :
  confirmationEvent e = true →
  keyUnique (bookings (session w)) →
  keyUnique (bookings (session (step w e))).
Proof.
  intros He Hu. destruct w as [s fl]. destruct s.
  destruct e; simpl in He; try discriminate; crunch_step;
    try discriminate;
    auto using keyUnique_removeAt, keyUnique_create_literal.
Qed.

Lemma run_confirmation_keyUnique trace w :
  forallb confirmationEvent trace = true →
  keyUnique (bookings (session w)) →
  keyUnique (bookings (session (run w trace))).
Proof.
  revert w. induction trace as [|e trace IH]; intros w Hall Hu; [exact Hu|].
  simpl in Hall. apply andb_true_iff in Hall as [He Hall].
  apply (IH (step w e) Hall), step_confirmation_keyUnique; assumption.
Qed.

End Uniqueness.

(** C5. Starting from a collection in which no two bookings share
    (room, date, startMins), every sequence of events in which all
    confirmations succeed (the user opens, fills, cancels and confirms
    create and delete flows, and every insert and delete call settles
    without error) ends in a collection in which no two bookings share
    (room, date, startMins). Confirm-create refuses a target whose key is
    in the slot index, leaving the collection as it is, and confirm-delete
    only removes entries. *)
Theorem confirmations_keep_keys_unique (w : World) (trace : list Event) :
  keyUnique (bookings (session w)) →
  forallb confirmationEvent trace = true →
  keyUnique (bookings (session (run w trace)))
  ∧ (∀ s c, activeCell s = Some c →
       is_Some (bookingsIndex (bookings s) !! keyOfCell c) →
       fst (confirmCreate s) = None
       ∧ bookings (exec confirmCreate s) = bookings s)
  ∧ (∀ s b, b ∈ bookings (exec confirmDelete s) → b ∈ bookings s).
Proof.
  intros Hu Hall. split; [by apply run_confirmation_keyUnique|]. split.
  - intros s c Hc Hk.
    destruct (decide (JSString.trim (nameInput s) = [])) as [Hn|Hn].
    + destruct s. simpl in *. subst. unfold exec, confirmCreate.
      unfold_handlers. rewrite Hn. simpl. done.
    + unfold exec. rewrite (confirmCreate_occupied s c Hc Hn Hk).
      destruct s. done.
  - intros s b. destruct (activeCell s) as [c|] eqn:Hc.
    + unfold exec. rewrite (confirmDelete_issues s c Hc). simpl.
      intros Hb. apply elem_of_removeAt in Hb. tauto.
    + destruct s. simpl in *. subst. done.
Qed.

(** Booking and releasing Monday 10:00 in the empty room 308. *)
Lemma confirmations_witness :
  keyUnique (bookings (session (run roomOpen bookThenRelease))).
Proof.
  apply (confirmations_keep_keys_unique roomOpen bookThenRelease).
  - vm_compute. constructor.
  - vm_compute. reflexivity.
Defined.

(** * Further properties of the code *)

(** ** Numbers as text *)

Section NumberText.

Import JSString.

Lemma uint_units_digits u : Forall (λ c, (48 <= c <= 57)%N) (uint_units u).
Proof. induction u; simpl; constructor; (lia || assumption). Qed.

Lemma uint_units_inj u v : uint_units u = uint_units v → u = v.
Proof.
  revert v. induction u; intros v; destruct v; simpl; intros H;
    try discriminate; try reflexivity; injection H as H; f_equal; auto.
Qed.

(** The decimal text of an integer determines the integer. *)
Lemma ofNumber_inj a b : ofNumber a = ofNumber b → a = b.
Proof.
  unfold ofNumber. intros H.
  rewrite <- (DecimalZ.of_to a), <- (DecimalZ.of_to b). f_equal.
  destruct (Z.to_int a) as [u|u], (Z.to_int b) as [v|v].
  - f_equal. by apply uint_units_inj.
  - pose proof (uint_units_digits u) as Hu. rewrite H in Hu.
    apply Forall_cons in Hu as [Hu _]. lia.
  - pose proof (uint_units_digits v) as Hv. rewrite <- H in Hv.
    apply Forall_cons in Hv as [Hv _]. lia.
  - injection H as H. f_equal. by apply uint_units_inj.
Qed.

Lemma ofNumber_underscoreFree n : underscoreFree (ofNumber n).
Proof.
  unfold underscoreFree, ofNumber.
  destruct (Z.to_int n) as [u|u]; [|constructor; [lia|]];
    (eapply Forall_impl; [apply uint_units_digits|]); simpl; intros; lia.
Qed.

(** A function is injective on a list whose images are pairwise
    distinct. *)
Lemma NoDup_map_inj {A B} (f : A → B) (l : list A) x y :
  NoDup (map f l) → x ∈ l → y ∈ l → f x = f y → x = y.
Proof.
  induction l as [|a l IH]; simpl; intros Hnd Hx Hy Heq.
  - by apply elem_of_nil in Hx.
  - apply NoDup_cons in Hnd as [Hnotin Hnd].
    apply elem_of_cons in Hx as [->|Hx], Hy as [->|Hy]; auto.
    + exfalso. apply Hnotin. rewrite Heq. apply list_elem_of_fmap. eauto.
    + exfalso. apply Hnotin. rewrite <- Heq. apply list_elem_of_fmap. eauto.
Qed.

(** The two-digit texts of 0..99, computed once. *)
Lemma pad2_table :
  Forall (λ n, length (pad2 n) = 2%nat ∧ underscoreFree (pad2 n))
         (seqZ 0 100)
  ∧ NoDup (map pad2 (seqZ 0 100)).
Proof.
  split.
  - apply (bool_decide_unpack _). vm_compute. exact I.
  - apply (bool_decide_unpack _). vm_compute. exact I.
Qed.

Lemma pad2_length n : 0 <= n <= 99 → length (pad2 n) = 2%nat.
Proof.
  intros Hn. destruct pad2_table as [H _].
  rewrite Forall_seqZ in H. apply H. lia.
Qed.

Lemma pad2_underscoreFree n : 0 <= n <= 99 → underscoreFree (pad2 n).
Proof.
  intros Hn. destruct pad2_table as [H _].
  rewrite Forall_seqZ in H. apply H. lia.
Qed.

Lemma pad2_inj a b : 0 <= a <= 99 → 0 <= b <= 99 → pad2 a = pad2 b → a = b.
Proof.
  intros Ha Hb Heq. destruct pad2_table as [_ H].
  apply (NoDup_map_inj pad2 (seqZ 0 100)); try done;
    apply elem_of_seqZ; lia.
Qed.

End NumberText.

(** ** Dates as text, and the days of a week *)

Section CivilDates.

Lemma monthStart_leap_cases t : InLeapYear t = 0 ∨ InLeapYear t = 1.
Proof. unfold InLeapYear, InLeapYearOf. case_match; auto. Qed.

Lemma DateFromTime_range t : 1 <= DateFromTime t <= 31.
Proof.
  pose proof (DayWithinYear_range t) as Hr.
  pose proof (InLeapYearOf_DaysInYear (YearFromTime t)) as Hl.
  pose proof (monthStart_leap_cases t) as Hc.
  unfold DateFromTime, MonthFromTime. fold (InLeapYear t) in Hl.
  revert Hr Hl Hc.
  generalize (DayWithinYear t) (InLeapYear t) (DaysInYear (YearFromTime t)).
  intros dwy leap diy Hr Hl Hc. unfold MonthOfDayWithinYear.
  repeat match goal with
         | |- context [?x <? ?y] => destruct (Z.ltb_spec x y)
         end; simpl; lia.
Qed.

(** Year, month and date are those of the day; the time of day does not
    matter. *)
Lemma civil_of_Day a b :
  Day a = Day b →
  YearFromTime a = YearFromTime b
  ∧ MonthFromTime a = MonthFromTime b
  ∧ DateFromTime a = DateFromTime b.
Proof.
  intros H.
  unfold DateFromTime, MonthFromTime, InLeapYear, DayWithinYear, YearFromTime.
  rewrite H. done.
Qed.

(** Conversely they determine the day. *)
Lemma Day_of_civil a b :
  YearFromTime a = YearFromTime b →
  MonthFromTime a = MonthFromTime b →
  DateFromTime a = DateFromTime b →
  Day a = Day b.
Proof.
  intros Hy Hm Hd.
  pose proof (MakeDay_DateFromTime a 0) as Ha.
  pose proof (MakeDay_DateFromTime b 0) as Hb.
  rewrite Hy, Hm, Hd in Ha. lia.
Qed.

Lemma toISODate_eq d :
  toISODate d
  = JSString.ofNumber (YearFromTime (timeValue d)) ++ [45%N]
    ++ pad2 (MonthFromTime (timeValue d) + 1) ++ [45%N]
    ++ pad2 (DateFromTime (timeValue d)).
Proof. unfold toISODate. rewrite copy_id. reflexivity. Qed.

Lemma toISODate_underscoreFree d : underscoreFree (toISODate d).
Proof.
  rewrite toISODate_eq.
  pose proof (MonthFromTime_range (timeValue d)).
  pose proof (DateFromTime_range (timeValue d)).
  unfold underscoreFree. rewrite !Forall_app. repeat split.
  - apply ofNumber_underscoreFree.
  - by repeat constructor.
  - apply pad2_underscoreFree. lia.
  - by repeat constructor.
  - apply pad2_underscoreFree. lia.
Qed.

Lemma getDay_addDays d k : getDay (addDays d k) = (getDay d + k) mod 7.
Proof.
  unfold getDay, WeekDay. rewrite Day_addDays.
  Z.div_mod_to_equations. lia.
Qed.

Lemma addDays_add d a b : addDays (addDays d a) b = addDays d (a + b).
Proof. apply Date_eq. rewrite !addDays_timeValue. lia. Qed.

Lemma addDays_0 d : addDays d 0 = d.
Proof. apply Date_eq. rewrite addDays_timeValue. lia. Qed.

End CivilDates.

(** The ISO text of a date names its local calendar day. *)
Lemma toISODate_Day_iff (a b : Date) :
  toISODate a = toISODate b ↔ Day (timeValue a) = Day (timeValue b).
Proof.
  rewrite !toISODate_eq.
  pose proof (MonthFromTime_range (timeValue a)) as Hma.
  pose proof (MonthFromTime_range (timeValue b)) as Hmb.
  pose proof (DateFromTime_range (timeValue a)) as Hda.
  pose proof (DateFromTime_range (timeValue b)) as Hdb.
  split.
  - intros H.
    apply app_inj_2 in H as [Hy H];
      [|simpl; rewrite !length_app; simpl;
        rewrite !pad2_length by lia; reflexivity].
    injection H as H.
    apply app_inj_1 in H as [Hm H]; [|rewrite !pad2_length by lia; reflexivity].
    injection H as Hd.
    apply ofNumber_inj in Hy. apply pad2_inj in Hm; [|lia..].
    apply pad2_inj in Hd; [|lia..].
    apply Day_of_civil; [done|lia|done].
  - intros H. destruct (civil_of_Day _ _ H) as (-> & -> & ->). reflexivity.
Qed.

(** X1. Two dates have the same ISO text exactly when they lie on the
    same local calendar day: the text ignores the time of day and never
    names two days alike. *)
Theorem toISODate_same_day (a b : Date) :
  toISODate a = toISODate b ↔ Day (timeValue a) = Day (timeValue b).
Proof. apply toISODate_Day_iff. Qed.

Lemma weekDays_lookup (ws : Date) (i : nat) d :
  weekDays ws !! i = Some d → (i < 5)%nat ∧ d = addDays ws (Z.of_nat i).
Proof.
  intros Hi. unfold weekDays in Hi.
  assert (i < 5)%nat as Hlt.
  { apply lookup_lt_Some in Hi. simpl in Hi. lia. }
  split; [done|].
  do 5 (destruct i as [|i]; [simpl in Hi; by injection Hi|]). lia.
Qed.

Lemma weekDays_weekday (ws : Date) (i : nat) d :
  mondayMidnight ws → weekDays ws !! i = Some d → 1 <= getDay d <= 5.
Proof.
  intros [Hd _] Hi. apply weekDays_lookup in Hi as [Hlt ->].
  rewrite getDay_addDays, Hd. Z.div_mod_to_equations. lia.
Qed.

(** X2. The header of a week that starts on a Monday at midnight shows
    five days: the [i]-th is [i] days after the Monday, falls on weekday
    Monday + [i] (so Monday..Friday, never a weekend day), at midnight,
    and the first is the week start itself. *)
Theorem weekDays_monday_to_friday (ws : Date) :
  mondayMidnight ws →
  length (weekDays ws) = 5%nat
  ∧ weekDays ws !! 0%nat = Some ws
  ∧ ∀ (i : nat) d, weekDays ws !! i = Some d →
      Day (timeValue d) = Day (timeValue ws) + Z.of_nat i
      ∧ getDay d = Z.of_nat i + 1
      ∧ 1 <= getDay d <= 5
      ∧ TimeWithinDay (timeValue d) = 0.
Proof.
  intros [Hd Ht]. split; [reflexivity|]. split.
  { unfold weekDays. simpl. f_equal. apply addDays_0. }
  intros i d Hi. apply weekDays_lookup in Hi as [Hlt ->].
  rewrite Day_addDays, getDay_addDays, TimeWithinDay_addDays, Hd.
  repeat split; try done; Z.div_mod_to_equations; lia.
Qed.

(** The week of Monday 2025-03-10. *)
Lemma weekDays_witness :
  map toISODate (weekDays monday_2025_03_10)
  = [js "2025-03-10"; js "2025-03-11"; js "2025-03-12"; js "2025-03-13";
     js "2025-03-14"]
  ∧ length (weekDays monday_2025_03_10) = 5%nat.
Proof.
  split; [vm_compute; reflexivity|].
  apply (weekDays_monday_to_friday monday_2025_03_10).
  vm_compute. split; reflexivity.
Defined.

(** X3. The two week buttons undo each other: next week then previous
    week, or the other way round, gives back the session unchanged; and
    moving by days composes additively. *)
Theorem week_buttons_inverse (s : Session) :
  exec previousWeek (exec nextWeek s) = s
  ∧ exec nextWeek (exec previousWeek s) = s
  ∧ ∀ d a b, addDays (addDays d a) b = addDays d (a + b).
Proof.
  destruct s. unfold exec, previousWeek, nextWeek. unfold_handlers.
  rewrite !addDays_add.
  change (7 + -7) with 0. change (-7 + 7) with 0. rewrite addDays_0.
  repeat split. intros. apply addDays_add.
Qed.

(** X4. The day label of any date is a weekday name of the table, the
    day of the month (1..31) with a dot, and a month name of the table:
    no lookup falls outside a table. The weekday name is the one at the
    number of days since Monday, Monday first. *)
Theorem formatDanishDayLabel_in_tables (d : Date) :
  ∃ dayName month,
    DK_DAY !! Z.to_nat ((getDay d + 6) mod 7) = Some dayName
    ∧ DK_MONTH !! Z.to_nat (getMonth d) = Some month
    ∧ 1 <= getDate d <= 31
    ∧ formatDanishDayLabel d
      = dayName ++ js " " ++ JSString.ofNumber (getDate d) ++ js ". " ++ month.
Proof.
  pose proof (getDay_range d) as Hg.
  pose proof (MonthFromTime_range (timeValue d)) as Hm.
  pose proof (DateFromTime_range (timeValue d)) as Hd.
  unfold formatDanishDayLabel. rewrite copy_id.
  rewrite getMonth_eq. unfold getDate.
  revert Hg Hm Hd.
  generalize (getDay d) (MonthFromTime (timeValue d))
             (DateFromTime (timeValue d)).
  intros g m dt Hg Hm Hd.
  assert (g = 0 ∨ g = 1 ∨ g = 2 ∨ g = 3 ∨ g = 4 ∨ g = 5 ∨ g = 6) as Hgc by lia.
  assert (m = 0 ∨ m = 1 ∨ m = 2 ∨ m = 3 ∨ m = 4 ∨ m = 5 ∨ m = 6 ∨ m = 7
          ∨ m = 8 ∨ m = 9 ∨ m = 10 ∨ m = 11) as Hmc by lia.
  clear Hg Hm.
  repeat (destruct Hgc as [->|Hgc]); try subst g;
    repeat (destruct Hmc as [->|Hmc]); try subst m;
    (eexists _, _; split; [reflexivity|]; split; [reflexivity|];
     split; [exact Hd|reflexivity]).
Qed.

(** ** Slot labels *)

Lemma minutesToHHMM_eq mins :
  0 <= mins →
  minutesToHHMM mins = pad2 (mins / 60) ++ [58%N] ++ pad2 (mins mod 60).
Proof.
  intros H. unfold minutesToHHMM. rewrite Z.rem_mod_nonneg by lia. reflexivity.
Qed.

Lemma minutesToHHMM_inj a b :
  0 <= a < 6000 → 0 <= b < 6000 →
  minutesToHHMM a = minutesToHHMM b → a = b.
Proof.
  intros Ha Hb H. rewrite !minutesToHHMM_eq in H by lia.
  assert (0 <= a / 60 <= 99 ∧ 0 <= a mod 60 <= 99
          ∧ 0 <= b / 60 <= 99 ∧ 0 <= b mod 60 <= 99) as (?&?&?&?)
    by (Z.div_mod_to_equations; lia).
  apply app_inj_1 in H as [Hh H]; [|by rewrite !pad2_length].
  injection H as Hm. apply pad2_inj in Hh, Hm; try done.
  Z.div_mod_to_equations. lia.
Qed.

Lemma minutesToHHMM_length a : 0 <= a < 6000 → length (minutesToHHMM a) = 5%nat.
Proof.
  intros Ha. rewrite minutesToHHMM_eq by lia.
  rewrite !length_app, !pad2_length by (Z.div_mod_to_equations; lia).
  reflexivity.
Qed.

(** X5. For minutes from 0 up to 98:59 the clock text has five code
    units, two digits, a colon and two digits, and names the minute
    uniquely; so slots that start at different minutes never share a
    label. *)
Theorem slot_labels_distinct (a b : Z) :
  0 <= a < 5940 → 0 <= b < 5940 →
  length (minutesToHHMM a) = 5%nat
  ∧ minutesToHHMM a !! 2%nat = Some 58%N
  ∧ length (formatSlotLabel a) = 11%nat
  ∧ (minutesToHHMM a = minutesToHHMM b → a = b)
  ∧ (formatSlotLabel a = formatSlotLabel b → a = b).
Proof.
  intros Ha Hb.
  pose proof (minutesToHHMM_length a ltac:(lia)) as La.
  pose proof (minutesToHHMM_length b ltac:(lia)) as Lb.
  pose proof (minutesToHHMM_length (a + 60) ltac:(lia)) as La'.
  split; [exact La|]. split.
  { rewrite minutesToHHMM_eq by lia.
    pose proof (pad2_length (a / 60) ltac:(Z.div_mod_to_equations; lia)) as Lh.
    destruct (pad2 (a / 60)) as [|x [|y [|z r]]]; try discriminate Lh.
    reflexivity. }
  split.
  { unfold formatSlotLabel. rewrite !length_app, La, La'. reflexivity. }
  split; [apply minutesToHHMM_inj; lia|].
  unfold formatSlotLabel. intros H.
  apply app_inj_1 in H as [H _]; [|by rewrite La, Lb].
  apply minutesToHHMM_inj in H; lia.
Qed.

(** The slots at 08:00 and 09:00. *)
Lemma slot_labels_witness :
  length (formatSlotLabel 480) = 11%nat
  ∧ (formatSlotLabel 480 = formatSlotLabel 540 → 480 = 540).
Proof.
  destruct (slot_labels_distinct 480 540) as (_ & _ & Hl & _ & Hi); [lia..|].
  split; [exact Hl|exact Hi].
Defined.

(** ** The composite key *)

Section Keys.

(** Cutting at the first underscore after an underscore-free prefix. *)
Lemma cut_at_underscore (p p' y y' : jsstring) :
  underscoreFree p → underscoreFree p' →
  p ++ 95%N :: y = p' ++ 95%N :: y' → p = p' ∧ y = y'.
Proof.
  revert p'. induction p as [|c p IH]; intros [|c' p'] Hp Hp' H; simpl in *.
  - by injection H.
  - injection H as <- _. apply Forall_cons in Hp' as [? _]. done.
  - injection H as -> _. apply Forall_cons in Hp as [? _]. done.
  - injection H as -> H. apply Forall_cons in Hp as [_ Hp].
    apply Forall_cons in Hp' as [_ Hp'].
    destruct (IH p' Hp Hp' H) as [-> ->]. done.
Qed.

Lemma underscoreFree_rev s : underscoreFree s → underscoreFree (rev s).
Proof. apply List.Forall_rev. Qed.

(** The key determines room, date and start minute whenever the dates
    hold no underscore; the room may be any string. *)
Lemma bookingKey_inj r1 d1 m1 r2 d2 m2 :
  underscoreFree d1 → underscoreFree d2 →
  bookingKey r1 d1 m1 = bookingKey r2 d2 m2 →
  r1 = r2 ∧ d1 = d2 ∧ m1 = m2.
Proof.
  intros H1 H2 H. unfold bookingKey in H.
  change (js "__") with [95%N; 95%N] in H.
  apply (f_equal (@rev N)) in H.
  rewrite !rev_app_distr in H. simpl in H. rewrite <- !app_assoc in H.
  simpl in H.
  apply cut_at_underscore in H as [Hm H];
    [|apply underscoreFree_rev, ofNumber_underscoreFree..].
  injection H as H.
  apply cut_at_underscore in H as [Hd H]; [|by apply underscoreFree_rev..].
  injection H as Hr.
  apply (f_equal (@rev N)) in Hm, Hd, Hr. rewrite !rev_involutive in *.
  apply ofNumber_inj in Hm. done.
Qed.

Lemma keyOfCell_inj c1 c2 :
  underscoreFree (cell_date c1) → underscoreFree (cell_date c2) →
  keyOfCell c1 = keyOfCell c2 → c1 = c2.
Proof.
  destruct c1, c2. unfold keyOfCell. simpl. intros H1 H2 H.
  apply bookingKey_inj in H as (-> & -> & ->); done.
Qed.

(** The five days of a week, keyed by a function that tells days apart,
    have five different keys. *)
Lemma weekDays_keys_NoDup {K} (g : Date → K) ws :
  (∀ a b, g a = g b → Day (timeValue a) = Day (timeValue b)) →
  NoDup (map g (weekDays ws)).
Proof.
  intros Hg. unfold weekDays. rewrite map_map.
  apply (NoDup_fmap_2_strong (λ i, g (addDays ws i))).
  - intros i j Hi Hj H. apply Hg in H. rewrite !Day_addDays in H. lia.
  - apply (bool_decide_unpack _). vm_compute. exact I.
Qed.

End Keys.

(** X6. The composite key [room__date__startMins] determines the room,
    the date and the start minute whenever the dates contain no
    underscore, whatever the room name is; a date with underscores can
    make two different cells share a key. *)
Theorem bookingKey_unambiguous r1 d1 m1 r2 d2 m2 :
  (underscoreFree d1 → underscoreFree d2 →
   bookingKey r1 d1 m1 = bookingKey r2 d2 m2 →
   r1 = r2 ∧ d1 = d2 ∧ m1 = m2)
  ∧ bookingKey (js "a") (js "b__c") 600 = bookingKey (js "a__b") (js "c") 600.
Proof.
  split; [apply bookingKey_inj|vm_compute; reflexivity].
Qed.

(** One cell, keyed twice. *)
Lemma bookingKey_witness :
  room308 = room308 ∧ js "2025-03-10" = js "2025-03-10" ∧ 600 = 600.
Proof.
  apply (proj1 (bookingKey_unambiguous room308 (js "2025-03-10") 600
                  room308 (js "2025-03-10") 600)).
  - apply (bool_decide_unpack _). vm_compute. exact I.
  - apply (bool_decide_unpack _). vm_compute. exact I.
  - reflexivity.
Defined.

(** X7. In the calendar grid of any room and week the React keys are
    pairwise distinct among siblings: the five header cells (keyed by the
    ISO date), the nine rows (keyed by the start minute) and the five
    cells of each row (keyed by the composite key); and cells of
    different days or different slots never share a composite key. *)
Theorem grid_keys_distinct (room : jsstring) (ws : Date) (s : Slot) :
  NoDup (headerKeys ws)
  ∧ NoDup rowKeys
  ∧ NoDup (cellKeys room ws s)
  ∧ ∀ room' d d' m m',
      bookingKey room (toISODate d) m = bookingKey room' (toISODate d') m' →
      room = room' ∧ Day (timeValue d) = Day (timeValue d') ∧ m = m'.
Proof.
  split; [|split; [|split]].
  - apply weekDays_keys_NoDup. intros a b. apply toISODate_Day_iff.
  - apply (bool_decide_unpack _). vm_compute. exact I.
  - apply weekDays_keys_NoDup. intros a b H.
    apply bookingKey_inj in H as (_ & H & _);
      [|apply toISODate_underscoreFree..].
    by apply toISODate_Day_iff.
  - intros room' d d' m m' H.
    apply bookingKey_inj in H as (? & H & ?);
      [|apply toISODate_underscoreFree..].
    by apply toISODate_Day_iff in H.
Qed.

(** ** The slot index as a lookup structure *)

Section Index.

Lemma bookingsIndex_snoc (bs : list Booking) (b : Booking) :
  bookingsIndex (bs ++ [b]) = <[keyOf b := b]> (bookingsIndex bs).
Proof. unfold bookingsIndex. rewrite foldl_app. reflexivity. Qed.

(** The entry at a key is the last booking of the collection with that
    key. *)
Lemma bookingsIndex_lookup_last (bs : list Booking) (k : jsstring) :
  bookingsIndex bs !! k
  = last (List.filter (λ b, bool_decide (keyOf b = k)) bs).
Proof.
  induction bs as [|b bs IH] using rev_ind; [reflexivity|].
  rewrite bookingsIndex_snoc, List.filter_app. simpl.
  destruct (decide (keyOf b = k)) as [Hk|Hk].
  - rewrite bool_decide_eq_true_2 by done. rewrite last_snoc.
    subst k. apply lookup_insert_eq.
  - rewrite bool_decide_eq_false_2 by done. rewrite app_nil_r.
    rewrite lookup_insert_ne by done. exact IH.
Qed.

Lemma bookingsIndex_lookup_Some (bs : list Booking) (k : jsstring) b :
  bookingsIndex bs !! k = Some b → b ∈ bs ∧ keyOf b = k.
Proof.
  rewrite bookingsIndex_lookup_last. intros H.
  apply last_Some_elem_of, list_elem_of_In, List.filter_In in H as [Hin Hk].
  apply bool_decide_eq_true in Hk. split; [by apply list_elem_of_In|done].
Qed.

Lemma filter_key_unique (bs : list Booking) b :
  NoDup (map keyOf bs) → b ∈ bs →
  List.filter (λ b', bool_decide (keyOf b' = keyOf b)) bs = [b].
Proof.
  induction bs as [|a bs IH]; intros Hnd Hb; [by apply elem_of_nil in Hb|].
  simpl in Hnd. apply NoDup_cons in Hnd as [Hnotin Hnd]. simpl.
  apply elem_of_cons in Hb as [->|Hb].
  - rewrite bool_decide_eq_true_2 by done. f_equal.
    clear IH Hnd. induction bs as [|c bs IH]; [reflexivity|]. simpl.
    rewrite bool_decide_eq_false_2.
    + apply IH. intros H. apply Hnotin. simpl. by right.
    + intros H. apply Hnotin. simpl. rewrite H. left.
  - rewrite bool_decide_eq_false_2; [by apply IH|].
    intros H. apply Hnotin. rewrite H. apply list_elem_of_fmap. eauto.
Qed.

(** Removing the bookings at a cell does not change what the index holds
    at the keys of other cells. *)
Lemma bookingsIndex_removeAt_other c (bs : list Booking) (k : jsstring) :
  k ≠ keyOfCell c →
  bookingsIndex (removeAt c bs) !! k = bookingsIndex bs !! k.
Proof.
  intros Hk. rewrite !bookingsIndex_lookup_last. f_equal.
  unfold removeAt. induction bs as [|b bs IH]; [reflexivity|]. simpl.
  destruct (atCell c b) eqn:Hc; simpl.
  - apply atCell_true in Hc. rewrite bool_decide_eq_false_2; [exact IH|].
    rewrite keyOf_cellOf, Hc. congruence.
  - destruct (bool_decide (keyOf b = k)); [f_equal|]; exact IH.
Qed.

Lemma bookingsIndex_removeAt_free c (bs : list Booking) :
  underscoreFree (cell_date c) →
  Forall (λ b, underscoreFree (date b)) bs →
  bookingsIndex (removeAt c bs) !! keyOfCell c = None.
Proof.
  intros Hc Hbs. apply bookingsIndex_lookup_None. intros b Hb Hk.
  apply elem_of_removeAt in Hb as [Hb Hne]. apply Hne.
  rewrite Forall_forall in Hbs. rewrite keyOf_cellOf in Hk.
  apply keyOfCell_inj in Hk; [done| |done]. simpl. by apply Hbs.
Qed.

End Index.

(** X8. Looking up the slot index: an entry found at a key is a booking
    of the collection with that key; a key has no entry exactly when no
    booking of the collection has it; in a collection without duplicate
    keys every booking is found at its own key; and when a key occurs
    more than once the booking written last is the one found. *)
Theorem bookingsIndex_lookup (bs : list Booking) :
  (∀ k b, bookingsIndex bs !! k = Some b → b ∈ bs ∧ keyOf b = k)
  ∧ (∀ k, bookingsIndex bs !! k = None ↔ ∀ b, b ∈ bs → keyOf b ≠ k)
  ∧ (NoDup (map keyOf bs) → ∀ b, b ∈ bs → bookingsIndex bs !! keyOf b = Some b)
  ∧ (∀ b, bookingsIndex (bs ++ [b]) !! keyOf b = Some b).
Proof.
  split; [apply bookingsIndex_lookup_Some|].
  split; [apply bookingsIndex_lookup_None|]. split.
  - intros Hnd b Hb.
    rewrite bookingsIndex_lookup_last, (filter_key_unique bs b Hnd Hb).
    reflexivity.
  - intros b. rewrite bookingsIndex_snoc. apply lookup_insert_eq.
Qed.

(** Ida's booking in a collection of one. *)
Lemma bookingsIndex_witness :
  bookingsIndex [ida] !! keyOf ida = Some ida.
Proof.
  apply (proj1 (proj2 (proj2 (bookingsIndex_lookup [ida])))).
  - vm_compute. repeat constructor. intros H. inversion H.
  - left.
Defined.

(** X9. An accepted confirm-create is on screen at once: right after the
    handler has run, before the store has answered, the slot index holds
    the new booking (the cell, with the typed name trimmed) at the key of
    the cell, the cell of the grid shows that name, and the index is
    unchanged at every other key. *)
Theorem confirmCreate_visible (s : Session) (c : Cell) :
  activeCell s = Some c →
  JSString.trim (nameInput s) ≠ [] →
  bookingsIndex (bookings s) !! keyOfCell c = None →
  let s1 := exec confirmCreate s in
  bookingsIndex (bookings s1) !! keyOfCell c = Some (newBooking c (nameInput s))
  ∧ slotCellText (bookingsIndex (bookings s1) !! keyOfCell c)
    = JSString.trim (nameInput s)
  ∧ ∀ k, k ≠ keyOfCell c →
      bookingsIndex (bookings s1) !! k = bookingsIndex (bookings s) !! k.
Proof.
  intros Hc Hn Hk s1. subst s1. unfold exec.
  rewrite (confirmCreate_issues s c Hc Hn Hk).
  pose proof (free_key_free_cell _ _ Hk) as Hfree.
  destruct s. simpl in *. rewrite (removeAt_absent c _ Hfree).
  rewrite bookingsIndex_snoc.
  assert (keyOf (newBooking c nameInput0) = keyOfCell c) as Hkey
    by (by rewrite keyOf_cellOf, cellOf_newBooking).
  rewrite Hkey, lookup_insert_eq. repeat split.
  intros k Hne. by rewrite lookup_insert_ne.
Qed.

(** Ida on the free Monday 10:00. *)
Lemma confirmCreate_visible_witness :
  slotCellText (bookingsIndex (bookings (exec confirmCreate readyToCreate))
                !! keyOfCell cell_10_00)
  = JSString.trim (nameInput readyToCreate).
Proof.
  apply (confirmCreate_visible readyToCreate cell_10_00).
  - vm_compute. reflexivity.
  - vm_compute. discriminate.
  - vm_compute. reflexivity.
Defined.

(** X10. Confirm-delete releases exactly the slot of the open modal: it
    keeps the collection of before as the rollback snapshot, removes the
    bookings at the cell and no others, leaves the slot index unchanged at
    every other key, and, the dates being free of underscores, leaves no
    entry at the key of the cell. *)
Theorem confirmDelete_releases_slot (s : Session) (c : Cell) :
  activeCell s = Some c →
  let s1 := exec confirmDelete s in
  bookingsSnapshotRef s1 = bookings s
  ∧ (∀ b, b ∈ bookings s1 ↔ b ∈ bookings s ∧ cellOf b ≠ c)
  ∧ (∀ k, k ≠ keyOfCell c →
       bookingsIndex (bookings s1) !! k = bookingsIndex (bookings s) !! k)
  ∧ (underscoreFree (cell_date c) →
     Forall (λ b, underscoreFree (date b)) (bookings s) →
     bookingsIndex (bookings s1) !! keyOfCell c = None).
Proof.
  intros Hc s1. subst s1. unfold exec. rewrite (confirmDelete_issues s c Hc).
  simpl. split; [reflexivity|]. split; [intros b; apply elem_of_removeAt|].
  split; [intros k; apply bookingsIndex_removeAt_other|].
  apply bookingsIndex_removeAt_free.
Qed.

(** The delete modal open on Ida's booking. *)
Lemma confirmDelete_releases_witness :
  bookingsSnapshotRef (exec confirmDelete readyToDelete)
  = bookings readyToDelete.
Proof.
  apply (confirmDelete_releases_slot readyToDelete cell_10_00).
  vm_compute. reflexivity.
Defined.

(** ** Blank names *)

Section Blank.

Import JSString.

Lemma trimStart_nil_iff s : trimStart s = [] ↔ blank s.
Proof.
  unfold blank. induction s as [|c s IH]; simpl.
  - split; [constructor|done].
  - destruct (isWhiteSpace c) eqn:Hc.
    + rewrite IH. split; [by constructor|]. intros H.
      by apply Forall_cons in H as [_ H].
    + split; [discriminate|]. intros H. apply Forall_cons in H as [H _].
      congruence.
Qed.

(** Trimming leaves nothing exactly of the strings of whitespace. *)
Lemma trim_nil_iff s : trim s = [] ↔ blank s.
Proof.
  split.
  - unfold trim, trimEnd. intros H.
    apply (f_equal (@rev N)) in H. rewrite rev_involutive in H. simpl in H.
    apply trimStart_nil_iff in H.
    destruct (trimStart s) as [|c r] eqn:E; [by apply trimStart_nil_iff|].
    pose proof (trimStart_head s c r E) as Hc.
    unfold blank in H. apply List.Forall_rev in H.
    rewrite rev_involutive in H. apply Forall_cons in H as [H _]. congruence.
  - intros H. apply trimStart_nil_iff in H. unfold trim. rewrite H.
    reflexivity.
Qed.

End Blank.

(** X11. With a modal cell, confirm-create answers a name with the
    enter-your-name message, without a store call and without touching
    the collection, exactly when the typed name consists of whitespace
    only (the empty name included; space, tab, line feed and no-break
    space count as whitespace). *)
Theorem confirmCreate_blank_name (s : Session) (c : Cell) :
  activeCell s = Some c →
  (blank (nameInput s)
   ↔ confirmCreate s = (None, exec (setErrorMsg msgEnterName) s))
  ∧ bookings (exec (setErrorMsg msgEnterName) s) = bookings s
  ∧ blank [32%N; 9%N; 10%N; 160%N] ∧ blank [] ∧ ¬ blank (js " Ida ").
Proof.
  intros Hc. split; [|split; [by destruct s|]].
  - rewrite <- trim_nil_iff. split.
    + intros Hn. destruct s. simpl in *. subst.
      unfold confirmCreate. unfold_handlers. rewrite Hn. reflexivity.
    + intros H.
      destruct (decide (JSString.trim (nameInput s) = [])) as [|Hn]; [done|].
      exfalso.
      destruct (bookingsIndex (bookings s) !! keyOfCell c) eqn:Hk.
      * rewrite (confirmCreate_occupied s c Hc Hn) in H by eauto.
        destruct s. unfold exec in H. simpl in H.
        injection H as H. vm_compute in H. discriminate.
      * rewrite (confirmCreate_issues s c Hc Hn Hk) in H. discriminate.
  - split; [|split].
    + apply trim_nil_iff. vm_compute. reflexivity.
    + constructor.
    + intros H. apply trim_nil_iff in H. vm_compute in H. discriminate.
Qed.

(** The create modal with nothing typed yet. *)
Lemma confirmCreate_blank_witness :
  confirmCreate (exec (setNameInput []) readyToCreate)
  = (None, exec (setErrorMsg msgEnterName) (exec (setNameInput []) readyToCreate)).
Proof.
  apply (confirmCreate_blank_name (exec (setNameInput []) readyToCreate)
           cell_10_00).
  - vm_compute. reflexivity.
  - constructor.
Defined.

(** ** What every reachable world satisfies *)

Section Reachable.

Lemma step_room w e :
  (∀ r, selectedRoom (session w) = Some r → r ∈ ROOMS) →
  (∀ r, selectedRoom (session (step w e)) = Some r → r ∈ ROOMS).
Proof.
  intros Hinv r. destruct w as [s fl]. destruct s.
  destruct e; crunch_step; intros; andb_hyps; simplify_eq; auto.
Qed.

Lemma step_modal w e :
  (modalOpen (session w) = true ↔ is_Some (activeCell (session w))) →
  (modalOpen (session (step w e)) = true ↔ is_Some (activeCell (session (step w e)))).
Proof.
  intros Hinv. destruct w as [s fl]. destruct s.
  destruct e; crunch_step; try done; try (split; [eauto|done]); try (split; [done|by intros [? ?]]).
Qed.

Lemma step_errorMsg w e :
  errorMsg (session w) ∈ knownMessages →
  errorMsg (session (step w e)) ∈ knownMessages.
Proof.
  intros Hinv. destruct w as [s fl]. destruct s.
  destruct e; crunch_step; try assumption; vm_compute; repeat constructor.
Qed.

Lemma elem_of_delete_inv {A} (l : list A) (i : nat) (x : A) :
  x ∈ delete i l → x ∈ l.
Proof.
  revert i. induction l as [|a l IH]; intros [|i]; simpl; try done.
  - intros H. by right.
  - intros H. apply elem_of_cons in H as [->|H]; [left|right; eauto].
Qed.

Lemma buildSlots_lookup_rowKeys (j : nat) sl :
  buildSlots !! j = Some sl → slot_startMins sl ∈ rowKeys.
Proof.
  intros H. unfold rowKeys. apply list_elem_of_fmap. exists sl.
  split; [done|]. by apply list_elem_of_lookup_2 in H.
Qed.

Lemma step_cell w e :
  mondayMidnight (weekStart (session w)) →
  (∀ r, selectedRoom (session w) = Some r → r ∈ ROOMS) →
  (∀ c, activeCell (session w) = Some c → bookable c) →
  (∀ c, activeCell (session (step w e)) = Some c → bookable c).
Proof.
  intros Hmon Hroom Hcell c. destruct w as [s fl]. destruct s.
  destruct e; crunch_step; intros; simplify_eq; auto.
  all: repeat split; simpl; eauto using weekDays_weekday, buildSlots_lookup_rowKeys.
Qed.

Lemma step_inserts w e :
  (∀ c, activeCell (session w) = Some c → bookable c) →
  (∀ p, ReqInsert p ∈ inflight w → wellFormedInsert p) →
  (∀ p, ReqInsert p ∈ inflight (step w e) → wellFormedInsert p).
Proof.
  intros Hcell Hins p Hp. destruct w as [s fl]. destruct s.
  destruct e; crunch_step; rewrite ?app_nil_r in Hp;
    try (apply elem_of_app in Hp as [Hp|Hp];
         [|apply list_elem_of_singleton in Hp; simplify_eq]);
    try (apply elem_of_delete_inv in Hp); auto.
  all: andb_hyps; split; [by apply Hcell|]; split; [done|];
    split; [by apply truthy_true|apply trim_idem].
Qed.

Lemma step_deletes w e :
  (∀ c, activeCell (session w) = Some c → bookable c) →
  (∀ p, ReqDelete p ∈ inflight w → ∃ c, bookable c ∧ pd_id p = keyOfCell c) →
  (∀ p, ReqDelete p ∈ inflight (step w e) →
     ∃ c, bookable c ∧ pd_id p = keyOfCell c).
Proof.
  intros Hcell Hdel p Hp. destruct w as [s fl]. destruct s.
  destruct e; crunch_step; rewrite ?app_nil_r in Hp;
    try (apply elem_of_app in Hp as [Hp|Hp];
         [|apply list_elem_of_singleton in Hp; simplify_eq]);
    try (apply elem_of_delete_inv in Hp); eauto.
Qed.

Lemma step_fetches w e : fetchesCurrent w → fetchesCurrent (step w e).
Proof.
  intros Hinv p Hp. destruct w as [s fl]. destruct s.
  unfold fetchesCurrent in Hinv.
  destruct e; crunch_step; rewrite ?app_nil_r in Hp;
    try (apply elem_of_app in Hp as [Hp|Hp];
         [|apply list_elem_of_singleton in Hp; simplify_eq]);
    try (apply elem_of_delete_inv in Hp);
    try (by apply Hinv);
    try (destruct (Hinv p Hp) as [Hle Heq]; split; [lia|intros; lia]);
    try (split; [lia|done]).
  all: andb_hyps; simplify_eq; try (split; [simpl; lia|done]).
  all: by apply Hinv.
Qed.

Lemma step_mondayMidnight w e :
  mondayMidnight (weekStart (session w)) →
  mondayMidnight (weekStart (session (step w e))).
Proof.
  intros Hmon. destruct (step_weekStart w e) as [->|[->|[->|[now ->]]]].
  - apply Hmon.
  - apply (addDays_week_mondayMidnight _ (-1)), Hmon.
  - apply (addDays_week_mondayMidnight _ 1), Hmon.
  - apply startOfWeekMonday_mondayMidnight.
Qed.

Lemma step_sound w e : sound w → sound (step w e).
Proof.
  intros (Hmon & Hroom & Hcell & Hmodal & Hmsg & Hins & Hdel & Hfetch).
  split; [by apply step_mondayMidnight|].
  split; [by apply step_room|].
  split; [by apply step_cell|].
  split; [by apply step_modal|].
  split; [by apply step_errorMsg|].
  split; [by apply step_inserts|].
  split; [by apply step_deletes|].
  by apply step_fetches.
Qed.

(** The invariant of the session machine. *)
Lemma reachable_sound w : reachable w → sound w.
Proof.
  induction 1 as [now|w e _ IH]; [|by apply step_sound].
  split; [apply startOfWeekMonday_mondayMidnight|].
  unfold start, initial. simpl.
  split; [done|]. split; [done|].
  split; [split; [done|by intros [? ?]]|].
  split; [left|].
  split; [intros p Hp; by apply elem_of_nil in Hp|].
  split; [intros p Hp; by apply elem_of_nil in Hp|].
  intros p Hp. by apply elem_of_nil in Hp.
Qed.

Lemma reachable_run w trace : reachable w → reachable (run w trace).
Proof.
  revert w. induction trace as [|e trace IH]; intros w Hw; [exact Hw|].
  apply (IH (step w e)), reachable_step, Hw.
Qed.

(** A fetch of an older generation changes neither the collection nor
    the loading flag. *)
Lemma fetchBookings_settled_stale s p out :
  pf_gen p ≠ effectGen s →
  bookings (exec (fetchBookings_settled p out) s) = bookings s
  ∧ loading (exec (fetchBookings_settled p out) s) = loading s.
Proof.
  intros Hgen. destruct s. simpl in Hgen.
  unfold exec, fetchBookings_settled. unfold_handlers.
  destruct out as [data [e|]|]; try done;
    rewrite bool_decide_eq_false_2 by done; done.
Qed.

Lemma fetchBookings_settled_room s p out :
  selectedRoom (exec (fetchBookings_settled p out) s) = selectedRoom s.
Proof.
  destruct s. unfold exec, fetchBookings_settled. unfold_handlers.
  destruct out as [data [e|]|]; try done;
    destruct (bool_decide (pf_gen p = effectGen0)); done.
Qed.

End Reachable.

(** X12. Every insert the session has in flight, in any world it can
    reach, is for a listed room, a Monday..Friday date in ISO form and one
    of the nine slots, carries the composite key of that cell as its id
    and a name that is trimmed and not empty; every delete in flight
    names the composite key of such a cell. *)
Theorem requests_well_formed (w : World) :
  reachable w →
  (∀ p, ReqInsert p ∈ inflight w → wellFormedInsert p)
  ∧ (∀ p, ReqDelete p ∈ inflight w →
       ∃ c, bookable c ∧ pd_id p = keyOfCell c).
Proof.
  intros Hw. apply reachable_sound in Hw.
  destruct Hw as (_ & _ & _ & _ & _ & Hins & Hdel & _). done.
Qed.

(** The insert of [lostRace]. *)
Lemma requests_witness : wellFormedInsert pendingIda.
Proof.
  apply (proj1 (requests_well_formed insertInFlight
                  (reachable_run _ _ (reachable_start _)))).
  vm_compute. left.
Defined.

(** X13. In every reachable world the modal is open exactly when there
    is an active cell; the active cell is a cell of the calendar (listed
    room, Monday..Friday, one of the nine slots); the selected room, if
    any, is a listed room; so a confirm-delete pressed in an open modal
    always reaches the store call. *)
Theorem modal_has_cell (w : World) :
  reachable w →
  (modalOpen (session w) = true ↔ is_Some (activeCell (session w)))
  ∧ (∀ c, activeCell (session w) = Some c → bookable c)
  ∧ (∀ r, selectedRoom (session w) = Some r → r ∈ ROOMS)
  ∧ (modalOpen (session w) = true →
     ∃ p, fst (confirmDelete (session w)) = Some p).
Proof.
  intros Hw. apply reachable_sound in Hw.
  destruct Hw as (_ & Hroom & Hcell & Hmodal & _).
  split; [exact Hmodal|]. split; [exact Hcell|]. split; [exact Hroom|].
  intros Hopen. apply Hmodal in Hopen as [c Hc].
  rewrite (confirmDelete_issues _ c Hc). eauto.
Qed.

(** The create modal of [lostRace]. *)
Lemma modal_has_cell_witness :
  is_Some (activeCell (session insertInFlight)).
Proof.
  apply (proj1 (modal_has_cell insertInFlight
                  (reachable_run _ _ (reachable_start _)))).
  vm_compute. reflexivity.
Defined.

(** X14. The message line of the modal never shows anything but nothing
    or one of the four messages of the handlers, in any reachable
    world. *)
Theorem message_is_known (w : World) :
  reachable w → errorMsg (session w) ∈ knownMessages.
Proof.
  intros Hw. apply reachable_sound in Hw.
  destruct Hw as (_ & _ & _ & _ & Hmsg & _). done.
Qed.

(** The message after the lost race. *)
Lemma message_witness :
  errorMsg (session (run (start monday_2025_03_10) lostRace)) ∈ knownMessages.
Proof.
  apply message_is_known, reachable_run, reachable_start.
Defined.

(** X15. A fetch that settles never changes the selected room. A fetch
    whose effect run has been cleaned up (its [isMounted] flag cleared by
    a room change since it was issued) changes neither the collection nor
    the loading flag, also when it was issued for the very room that is
    selected again now. A fetch of the current effect run was issued for
    the room that is selected, and when its call resolves it ends
    loading. So the collection or the loading flag changes only through a
    fetch of the current run, for the selected room. *)
Theorem fetch_applies_to_selected_room (w : World) (i : nat)
    (p : PendingFetch) (out : Outcome) :
  reachable w →
  inflight w !! i = Some (ReqFetch p) →
  let w' := step w (EvFetchSettled i out) in
  selectedRoom (session w') = selectedRoom (session w)
  ∧ (pf_gen p ≠ effectGen (session w) →
     bookings (session w') = bookings (session w)
     ∧ loading (session w') = loading (session w))
  ∧ (pf_gen p = effectGen (session w) →
     selectedRoom (session w) = Some (pf_room p)
     ∧ ∀ data error, out = Resolved data error →
         loading (session w') = false)
  ∧ (bookings (session w') ≠ bookings (session w)
     ∨ loading (session w') ≠ loading (session w) →
     pf_gen p = effectGen (session w)
     ∧ selectedRoom (session w) = Some (pf_room p)).
Proof.
  intros Hw Hi w'. subst w'. apply reachable_sound in Hw.
  destruct Hw as (_ & _ & _ & _ & _ & _ & _ & Hfetch).
  destruct (Hfetch p (list_elem_of_lookup_2 _ _ _ Hi)) as [_ Hcur].
  unfold step, settle. rewrite Hi. simpl.
  split; [apply fetchBookings_settled_room|].
  split; [apply fetchBookings_settled_stale|]. split.
  - intros Heq. split; [by apply Hcur|].
    intros data error ->. destruct (session w). simpl in Heq. subst.
    unfold exec, fetchBookings_settled. unfold_handlers.
    rewrite bool_decide_eq_true_2 by reflexivity.
    destruct error; reflexivity.
  - intros Hch.
    destruct (decide (pf_gen p = effectGen (session w))) as [Heq|Hne].
    + split; [exact Heq|by apply Hcur].
    + exfalso.
      destruct (fetchBookings_settled_stale (session w) p out Hne) as [Hb Hl].
      destruct Hch as [Hch|Hch]; by apply Hch.
Qed.

(** Room 308 re-opened with the fetch of the first visit still in
    flight: that fetch settles with Ida's row and changes nothing,
    although room 308 is the selected room; the fetch of the second visit
    settles with the same row and the collection holds Ida's booking. *)
Lemma fetch_applies_witness :
  inflight reopened = [ReqFetch firstFetch; ReqFetch (mkPendingFetch room308 3)]
  ∧ selectedRoom (session reopened) = Some (pf_room firstFetch)
  ∧ (bookings (session (step reopened
        (EvFetchSettled 0 (Resolved (Some [idaRow]) None))))
     = bookings (session reopened)
     ∧ loading (session (step reopened
        (EvFetchSettled 0 (Resolved (Some [idaRow]) None))))
       = loading (session reopened))
  ∧ bookings (session reopened) = []
  ∧ bookings (session (step reopened
       (EvFetchSettled 1 (Resolved (Some [idaRow]) None)))) = [ida].
Proof.
  split; [vm_compute; reflexivity|]. split; [vm_compute; reflexivity|].
  split; [|split; vm_compute; reflexivity].
  apply (fetch_applies_to_selected_room reopened 0 firstFetch
           (Resolved (Some [idaRow]) None)).
  - apply reachable_run, reachable_start.
  - vm_compute. reflexivity.
  - vm_compute. lia.
Defined.

(** ** Uniqueness with failures and rollbacks *)

Section UniquenessAll.

Lemma step_keyUnique_all w e :
  uniqueFetch e →
  keyUnique (bookings (session w)) ∧ keyUnique (bookingsSnapshotRef (session w)) →
  keyUnique (bookings (session (step w e)))
  ∧ keyUnique (bookingsSnapshotRef (session (step w e))).
Proof.
  intros He [Hu Hs]. destruct w as [s fl]. destruct s.
  destruct e; simpl in He; crunch_step; split;
    auto using keyUnique_removeAt, keyUnique_create_literal.
Qed.

Lemma run_keyUnique_all trace w :
  Forall uniqueFetch trace →
  keyUnique (bookings (session w)) ∧ keyUnique (bookingsSnapshotRef (session w)) →
  keyUnique (bookings (session (run w trace)))
  ∧ keyUnique (bookingsSnapshotRef (session (run w trace))).
Proof.
  revert w. induction trace as [|e trace IH]; intros w Hall Hu; [exact Hu|].
  apply Forall_cons in Hall as [He Hall].
  apply (IH (step w e) Hall), step_keyUnique_all; assumption.
Qed.

End UniquenessAll.

(** X16. From the first session on, whatever the user does and however
    the store calls settle, failures and rollbacks included, the
    collection and the rollback snapshot never hold two bookings with the
    same (room, date, start minute), as long as no fetch returns two
    well-typed rows with the same triple. *)
Theorem keys_unique_always (now : Date) (trace : list Event) :
  Forall uniqueFetch trace →
  keyUnique (bookings (session (run (start now) trace)))
  ∧ keyUnique (bookingsSnapshotRef (session (run (start now) trace))).
Proof.
  intros Hall. apply run_keyUnique_all; [exact Hall|].
  split; constructor.
Qed.

(** The double delete with the store down. *)
Lemma keys_unique_witness :
  keyUnique (bookings (session (run (start monday_2025_03_10) doubleDelete))).
Proof.
  apply (keys_unique_always monday_2025_03_10 doubleDelete).
  unfold doubleDelete.
  repeat (apply Forall_cons; split); try apply Forall_nil; try exact I.
  vm_compute. apply NoDup_singleton.
Defined.

(** X17. Booking a free slot and releasing it again gives back the
    collection: click the free slot, type a name that is not blank,
    confirm, let the insert settle without error (the modal closes),
    click the slot again (the delete modal opens, the cell showing the
    trimmed name), confirm the deletion: the collection is the one from
    before the first click. *)
Theorem book_then_release (s : Session) (r : jsstring) (d : Date) (m : Z)
    (n : jsstring) (p : PendingInsert) (out : Outcome) :
  selectedRoom s = Some r → r ≠ [] →
  bookingsIndex (bookings s) !! bookingKey r (toISODate d) m = None →
  JSString.trim n ≠ [] →
  thrown out = None →
  let s1 := exec (onClickSlot d m) s in
  let s2 := exec (setNameInput n) s1 in
  let s3 := exec confirmCreate s2 in
  let s4 := exec (confirmCreate_settled p out) s3 in
  let s5 := exec (onClickSlot d m) s4 in
  let s6 := exec confirmDelete s5 in
  modalMode s1 = ModeCreate
  ∧ bookings s3 = bookings s ++ [mkBooking r (toISODate d) m (JSString.trim n)]
  ∧ modalOpen s4 = false
  ∧ modalMode s5 = ModeDelete
  ∧ slotCellText (bookingsIndex (bookings s5) !! bookingKey r (toISODate d) m)
    = JSString.trim n
  ∧ bookings s6 = bookings s.
Proof.
  intros Hr Hne Hk Hn Hout. simpl.
  pose proof (free_key_free_cell _ (mkCell r (toISODate d) m) Hk) as Hfree.
  apply truthy_true in Hne, Hn.
  destruct s. simpl in *. subst.
  unfold exec, onClickSlot, confirmCreate, confirmCreate_settled,
    confirmDelete, closeModal, openCreateModal, openDeleteModal.
  rewrite Hout.
  unfold_handlers. rewrite Hne. simpl. rewrite Hk. unfold_handlers.
  rewrite Hn. simpl. unfold keyOfCell. simpl. rewrite Hk.
  rewrite bool_decide_eq_false_2 by (by intros [? ?]).
  unfold_handlers. rewrite Hne. simpl.
  rewrite (removeAt_absent _ _ Hfree).
  set (b := mkBooking r (toISODate d) m (JSString.trim n)).
  assert (bookingsIndex (bookings0 ++ [b]) !! bookingKey r (toISODate d) m
          = Some b) as Hb
    by (rewrite bookingsIndex_snoc; apply lookup_insert_eq).
  rewrite Hb. unfold_handlers.
  repeat split.
  - rewrite Hb. reflexivity.
  - rewrite (removeAt_app_new (mkCell r (toISODate d) m)) by reflexivity.
    apply (removeAt_absent _ _ Hfree).
Qed.

(** Room 308, Monday 10:00, Ida. *)
Lemma book_then_release_witness :
  let s := session roomOpen in
  bookings (exec confirmDelete (exec (onClickSlot monday_2025_03_10 600)
    (exec (confirmCreate_settled pendingIda (Resolved None None))
      (exec confirmCreate (exec (setNameInput (js "Ida"))
        (exec (onClickSlot monday_2025_03_10 600) s))))))
  = bookings s.
Proof.
  intros s.
  apply (book_then_release s room308 monday_2025_03_10 600 (js "Ida")
           pendingIda (Resolved None None)).
  - vm_compute. reflexivity.
  - vm_compute. discriminate.
  - vm_compute. reflexivity.
  - vm_compute. discriminate.
  - reflexivity.
Defined.

(** ** What a cell of the grid shows *)

(** X18. When the dates of the collection hold no underscore, a cell of
    the grid shows the name of a booking of the collection for exactly
    its room, day and slot if there is one, and [Ledig] otherwise; it
    never shows a booking of another room, day or slot. *)
Theorem cellText_shows_own_booking (room : jsstring) (bs : list Booking)
    (d : Date) (s : Slot) :
  Forall (λ b, underscoreFree (date b)) bs →
  let c := mkCell room (toISODate d) (slot_startMins s) in
  ((∃ b, b ∈ bs ∧ cellOf b = c) →
   ∃ b, b ∈ bs ∧ cellOf b = c ∧ cellText room bs d s = name b)
  ∧ ((∀ b, b ∈ bs → cellOf b ≠ c) → cellText room bs d s = js "Ledig").
Proof.
  intros Hbs c. unfold cellText.
  change (bookingKey room (toISODate d) (slot_startMins s))
    with (keyOfCell c).
  rewrite Forall_forall in Hbs.
  assert (∀ b, b ∈ bs → keyOf b = keyOfCell c → cellOf b = c) as Hinj.
  { intros b Hb Hk. rewrite keyOf_cellOf in Hk.
    apply keyOfCell_inj in Hk; [done|by apply Hbs|].
    apply toISODate_underscoreFree. }
  split.
  - intros (b & Hb & Hc).
    destruct (bookingsIndex bs !! keyOfCell c) as [b'|] eqn:E.
    + apply bookingsIndex_lookup_Some in E as [Hb' Hk'].
      exists b'. split; [done|]. split; [by apply Hinj|reflexivity].
    + exfalso. apply (proj1 (bookingsIndex_lookup_None _ _) E b Hb).
      by rewrite keyOf_cellOf, Hc.
  - intros Hnone.
    destruct (bookingsIndex bs !! keyOfCell c) as [b'|] eqn:E; [|reflexivity].
    apply bookingsIndex_lookup_Some in E as [Hb' Hk'].
    exfalso. by apply (Hnone b' Hb'), Hinj.
Qed.

(** Ida's cell, Monday 10:00 in room 308. *)
Lemma cellText_witness :
  ∃ b, b ∈ [ida]
       ∧ cellText room308 [ida] monday_2025_03_10 (mkSlot 600 (js "10:00-11:00"))
         = name b.
Proof.
  destruct (proj1 (cellText_shows_own_booking room308 [ida] monday_2025_03_10
                     (mkSlot 600 (js "10:00-11:00"))
                     ltac:(repeat constructor;
                           apply (bool_decide_unpack _); vm_compute; exact I)))
    as (b & Hb & _ & Ht).
  - exists ida. split; [left|vm_compute; reflexivity].
  - exists b. split; [exact Hb|exact Ht].
Defined.

(** ** Leaving a room *)

Section Back.

Lemma back_world w now r :
  selectedRoom (session w) = Some r → r ≠ [] →
  inflight (step w (EvBack now)) = inflight w
  ∧ effectGen (session (step w (EvBack now))) = S (effectGen (session w))
  ∧ selectedRoom (session (step w (EvBack now))) = None
  ∧ bookings (session (step w (EvBack now))) = bookings (session w).
Proof.
  intros Hr Hne. destruct w as [s fl]. destruct s. simpl in *. subst.
  apply truthy_true in Hne.
  unfold step, issue, resetToRoomSelection, selectRoom, roomEffect.
  unfold_handlers. rewrite Hne. simpl.
  rewrite app_nil_r. done.
Qed.

End Back.

(** X19. Going back to the room selection cuts off every fetch in
    flight: whichever call settles next, and however, a fetch among them
    no longer changes the collection or the loading flag (its result
    belongs to the room that was left), while the collection itself is
    kept as it was. *)
Theorem back_invalidates_fetches (w : World) (now : Date) :
  reachable w →
  roomShown (session w) = true →
  let w1 := step w (EvBack now) in
  bookings (session w1) = bookings (session w)
  ∧ selectedRoom (session w1) = None
  ∧ ∀ i out,
      bookings (session (step w1 (EvFetchSettled i out))) = bookings (session w1)
      ∧ loading (session (step w1 (EvFetchSettled i out))) = loading (session w1).
Proof.
  intros Hw Hshown w1. subst w1.
  apply reachable_sound in Hw.
  destruct Hw as (_ & _ & _ & _ & _ & _ & _ & Hfetch).
  unfold roomShown in Hshown.
  destruct (selectedRoom (session w)) as [r|] eqn:Hr; [|discriminate].
  apply truthy_true in Hshown.
  destruct (back_world w now r Hr Hshown) as (Hfl & Hgen & Hsel & Hb).
  split; [exact Hb|]. split; [exact Hsel|].
  intros i out. clear Hb Hsel.
  remember (step w (EvBack now)) as w1 eqn:E. clear E.
  unfold step, settle. rewrite Hfl.
  destruct (inflight w !! i) as [[p|p|p]|] eqn:Hi; try done. simpl.
  apply fetchBookings_settled_stale. rewrite Hgen.
  destruct (Hfetch p (list_elem_of_lookup_2 _ _ _ Hi)) as [Hle _]. lia.
Qed.

(** Leaving room 308 while its first fetch is in flight. *)
Lemma back_witness :
  bookings (session (step fetchInFlight (EvBack monday_2025_03_10)))
  = bookings (session fetchInFlight).
Proof.
  apply (back_invalidates_fetches fetchInFlight monday_2025_03_10).
  - apply reachable_run, reachable_start.
  - vm_compute. reflexivity.
Defined.
